(** * dm-structured-data-anonymizer: masking rules over structured records

    A shallow embedding of [src/main.py] (class [DataAnonymizer]) and the
    properties its specification states about it.

    The program walks a decoded record (a dict, a list of dicts, or an
    ElementTree element), looks every field name or tag up in a rule table
    and replaces the value by what the rule string evaluates to.  Rule
    evaluation calls into three collaborators that are not part of the
    repository: the Faker object, the interpreter's [eval] and the [random]
    module.  They are gathered in the class [Runtime]; everything proved
    below holds for every runtime unless a hypothesis says otherwise.

    Reading and writing files, decoding and encoding JSON, CSV and XML, the
    command line and logging are left out: the model starts from decoded
    data and ends with the masked data. *)

From Stdlib Require Import String Ascii List ZArith Lia Bool.
From Stdlib Require Import DecimalString.
From Stdlib Require DecimalFacts DecimalPos.
Import ListNotations.
Open Scope string_scope.
Open Scope Z_scope.

#[local] Set Warnings "-register-all".

(** ** Python values *)

(** The values that occur in decoded JSON / CSV data and in the rule table.
    A float is only ever copied or tested for truth, so it is kept as a
    mantissa and a binary exponent. *)
Inductive pyval : Type :=
| VNone
| VBool (b : bool)
| VInt (z : Z)
| VFloat (m e : Z)
| VStr (s : string)
| VList (l : list pyval)
| VDict (d : list (string * pyval)).

(** A dict keeps insertion order; its keys are pairwise distinct. *)
Definition dict := list (string * pyval).

Definition keys (d : dict) : list string := map fst d.

Fixpoint dict_get (d : dict) (k : string) : option pyval :=
  match d with
  | [] => None
  | (k', v) :: rest => if String.eqb k' k then Some v else dict_get rest k
  end.

(** [d[k] = v]: an existing key keeps its position, a new key goes last. *)
Fixpoint dict_set (d : dict) (k : string) (v : pyval) : dict :=
  match d with
  | [] => [(k, v)]
  | (k', v') :: rest =>
      if String.eqb k' k then (k', v) :: rest else (k', v') :: dict_set rest k v
  end.

(** [config.get(key)]: [None] when the key is missing. *)
Definition get_or_none (d : dict) (k : string) : pyval :=
  match dict_get d k with
  | Some v => v
  | None => VNone
  end.

(** [key in config] *)
Definition dict_mem (d : dict) (k : string) : bool :=
  match dict_get d k with
  | Some _ => true
  | None => false
  end.

(** Truth value testing, as [if rule:] and [config or self.config] do. *)
Definition truthy (v : pyval) : bool :=
  match v with
  | VNone => false
  | VBool b => b
  | VInt z => negb (z =? 0)
  | VFloat m _ => negb (m =? 0)
  | VStr s => negb (String.eqb s "")
  | VList l => match l with [] => false | _ :: _ => true end
  | VDict d => match d with [] => false | _ :: _ => true end
  end.

(** ** Exceptions and results *)

Inductive exn : Type :=
| AttributeError
| ValueError
| TypeError
| SyntaxError
| NameError
| OtherException (name : string)
| SystemExit
| KeyboardInterrupt.

(** [isinstance(e, Exception)]: the last two derive from [BaseException]
    only, and an [except Exception] clause lets them through. *)
Definition is_Exception (e : exn) : bool :=
  match e with
  | SystemExit | KeyboardInterrupt => false
  | _ => true
  end.

Inductive result (A : Type) : Type :=
| Ret (a : A)
| Raise (e : exn).
Arguments Ret {A} a.
Arguments Raise {A} e.

(** ** The runtime the program runs against *)

Class Runtime : Type := {
  (** state of the Faker instance and of the [random] module *)
  World : Type;
  (** [getattr(self.fake, name)()] *)
  fake_call : string -> World -> result pyval * World;
  (** the next raw draw of the [random] module's generator *)
  random_raw : World -> Z * World;
  (** [eval(expr)] for an expression outside the fragment modelled below *)
  py_eval_ext : string -> World -> result pyval * World;
  (** [str(v)] for floats and containers *)
  py_str_ext : pyval -> string
}.

(** Computations: state passing over the world, with exceptions. *)
Definition M `{Runtime} (A : Type) : Type := World -> result A * World.

Definition ret `{Runtime} {A : Type} (a : A) : M A := fun w => (Ret a, w).

Definition raise `{Runtime} {A : Type} (e : exn) : M A := fun w => (Raise e, w).

Definition bind `{Runtime} {A B : Type} (m : M A) (k : A -> M B) : M B :=
  fun w =>
    match m w with
    | (Ret a, w') => k a w'
    | (Raise e, w') => (Raise e, w')
    end.

(** [try: m  except Exception as e: h e] *)
Definition try_except `{Runtime} {A : Type} (m : M A) (h : exn -> M A) : M A :=
  fun w =>
    match m w with
    | (Ret a, w') => (Ret a, w')
    | (Raise e, w') => if is_Exception e then h e w' else (Raise e, w')
    end.

Declare Scope py_scope.
Delimit Scope py_scope with py.
Notation "x <- m ;; k" := (bind m (fun x => k))
  (at level 100, m at next level, right associativity) : py_scope.
Open Scope py_scope.

(** ** Strings *)

(** [s.startswith(p)] *)
Fixpoint startswith (s p : string) {struct p} : bool :=
  match p with
  | EmptyString => true
  | String c p' =>
      match s with
      | EmptyString => false
      | String d s' => Ascii.eqb c d && startswith s' p'
      end
  end.

(** [s[n:]] *)
Fixpoint slice_from (n : nat) (s : string) : string :=
  match n, s with
  | O, _ => s
  | S _, EmptyString => EmptyString
  | S n', String _ s' => slice_from n' s'
  end.

(** [str(n)] for an int: decimal digits, a minus sign when negative. *)
Definition str_of_int (n : Z) : string := NilZero.string_of_int (Z.to_int n).

(** [str(v)] *)
Definition py_str `{Runtime} (v : pyval) : string :=
  match v with
  | VNone => "None"
  | VBool true => "True"
  | VBool false => "False"
  | VInt n => str_of_int n
  | VStr s => s
  | _ => py_str_ext v
  end.

(** ** The fragment of [eval] that is modelled

    [eval(rule)] runs an arbitrary Python expression.  The model interprets
    the calls [random.NAME(INT, ..., INT)] for the functions of the [random]
    module listed in [random_call]; every other expression is handed to the
    runtime ([py_eval_ext]), about which nothing is assumed. *)

Definition is_digit (c : ascii) : bool :=
  let n := nat_of_ascii c in ((48 <=? n) && (n <=? 57))%nat.

Definition is_ident_char (c : ascii) : bool :=
  let n := nat_of_ascii c in
  (((48 <=? n) && (n <=? 57)) || ((65 <=? n) && (n <=? 90))
   || ((97 <=? n) && (n <=? 122)) || (n =? 95))%nat.

(** The longest prefix whose characters satisfy [p], and what follows it. *)
Fixpoint span (p : ascii -> bool) (s : string) : string * string :=
  match s with
  | EmptyString => (EmptyString, EmptyString)
  | String c r =>
      if p c then let (a, b) := span p r in (String c a, b)
      else (EmptyString, s)
  end.

Fixpoint skip_spaces (s : string) : string :=
  match s with
  | String c r => if Ascii.eqb c " " then skip_spaces r else s
  | EmptyString => EmptyString
  end.

Fixpoint all_zeros (s : string) : bool :=
  match s with
  | EmptyString => true
  | String c r => Ascii.eqb c "0" && all_zeros r
  end.

(** A decimal literal may start with [0] only when it is zero. *)
Definition leading_zero_ok (ds : string) : bool :=
  match ds with
  | String c r => if Ascii.eqb c "0" then all_zeros r else true
  | EmptyString => false
  end.

(** An optional minus sign and a decimal literal; returns the rest too. *)
Definition parse_int_literal (s : string) : option (Z * string) :=
  let '(neg, s1) :=
    match s with
    | String c r => if Ascii.eqb c "-" then (true, r) else (false, s)
    | EmptyString => (false, s)
    end in
  let '(ds, rest) := span is_digit s1 in
  if leading_zero_ok ds then
    match NilZero.uint_of_string ds with
    | Some u => Some (if neg then - Z.of_uint u else Z.of_uint u, rest)
    | None => None
    end
  else None.

(** The arguments after an opening parenthesis or a comma, up to the
    closing parenthesis; returns the text after it. *)
Fixpoint parse_args (fuel : nat) (s : string) : option (list Z * string) :=
  match fuel with
  | O => None
  | S fuel' =>
      match parse_int_literal (skip_spaces s) with
      | Some (n, r) =>
          match skip_spaces r with
          | String c r' =>
              if Ascii.eqb c "," then
                match parse_args fuel' r' with
                | Some (ns, t) => Some (n :: ns, t)
                | None => None
                end
              else if Ascii.eqb c ")" then Some ([n], r')
              else None
          | EmptyString => None
          end
      | None => None
      end
  end.

(** [random.NAME(INT, ..., INT)] *)
Definition parse_random_call (expr : string) : option (string * list Z) :=
  if startswith expr "random." then
    let '(name, r) := span is_ident_char (slice_from 7 expr) in
    match skip_spaces r with
    | String c r1 =>
        if Ascii.eqb c "(" then
          let parsed :=
            match skip_spaces r1 with
            | String d r2 =>
                if Ascii.eqb d ")" then Some ([], r2)
                else parse_args (String.length r1) r1
            | EmptyString => None
            end in
          match parsed with
          | Some (args, t) =>
              match skip_spaces t with
              | EmptyString => Some (name, args)
              | String _ _ => None
              end
          | None => None
          end
        else None
    | EmptyString => None
    end
  else None.

(** ** The [random] module *)

(** [Random._randbelow(n)] for [0 < n]: a draw reduced to [0 <= k < n]. *)
Definition randbelow `{Runtime} (n : Z) : M Z :=
  fun w => let (r, w') := random_raw w in (Ret (r mod n), w').

(** [random.randrange(start, stop)] *)
Definition randrange `{Runtime} (start stop : Z) : M pyval :=
  if start <? stop then
    k <- randbelow (stop - start) ;; ret (VInt (start + k))
  else raise ValueError.

(** [random.randint(a, b)], which is [randrange(a, b + 1)] *)
Definition randint `{Runtime} (a b : Z) : M pyval := randrange a (b + 1).

Definition random_call `{Runtime} (name : string) (args : list Z)
  : option (M pyval) :=
  if String.eqb name "randint" then
    match args with
    | [a; b] => Some (randint a b)
    | _ => Some (raise TypeError)
    end
  else if String.eqb name "randrange" then
    match args with
    | [a] => Some (randrange 0 a)
    | [a; b] => Some (randrange a b)
    | _ => None
    end
  else None.

(** [eval(expr)] *)
Definition py_eval `{Runtime} (expr : string) : M pyval :=
  match parse_random_call expr with
  | Some (name, args) =>
      match random_call name args with
      | Some m => m
      | None => py_eval_ext expr
      end
  | None => py_eval_ext expr
  end.

(** ** class DataAnonymizer *)

Definition SSN_PATTERN : string := "^\d{3}-\d{2}-\d{4}$".
Definition EMAIL_PATTERN : string :=
  "^[A-Za-z0-9._%+-]+@[A-Za-z0-9.-]+\.[A-Z|a-z]{2,}$".
Definition PHONE_PATTERN : string := "^\d{10}$".

Definition MASKED_VALUE : pyval := VStr "[MASKED_VALUE]".
Definition MASKING_ERROR : pyval := VStr "[MASKING_ERROR]".

(** [_generate_masked_value_from_regex(self, regex_pattern)] *)
Definition _generate_masked_value_from_regex `{Runtime} (regex_pattern : string)
  : M pyval :=
  if String.eqb regex_pattern SSN_PATTERN then fake_call "ssn"
  else if String.eqb regex_pattern EMAIL_PATTERN then fake_call "email"
  else if String.eqb regex_pattern PHONE_PATTERN then fake_call "phone_number"
  else ret MASKED_VALUE.

(** The body of the [try] block of [_apply_masking_rule].  A rule that is
    not a string has no [startswith] attribute. *)
Definition masking_rule_body `{Runtime} (rule : pyval) : M pyval :=
  match rule with
  | VStr r =>
      if startswith r "fake." then
        v <- fake_call (slice_from 5 r) ;; ret (VStr (py_str v))
      else if startswith r "random." then
        v <- py_eval r ;; ret (VStr (py_str v))
      else if String.eqb r "null" then ret VNone
      else if startswith r "regex:" then
        _generate_masked_value_from_regex (slice_from 6 r)
      else ret (VStr r)
  | _ => raise AttributeError
  end.

(** [_apply_masking_rule(self, rule)] *)
Definition _apply_masking_rule `{Runtime} (rule : pyval) : M pyval :=
  try_except (masking_rule_body rule) (fun _ => ret MASKING_ERROR).

(** The loop of [_anonymize_data] over [data.items()], filling
    [anonymized_data]. *)
Fixpoint anonymize_items `{Runtime} (items : dict) (config : dict)
  (anonymized_data : dict) : M dict :=
  match items with
  | [] => ret anonymized_data
  | (key, value) :: rest =>
      let rule := get_or_none config key in
      if truthy rule then
        v <- _apply_masking_rule rule ;;
        anonymize_items rest config (dict_set anonymized_data key v)
      else anonymize_items rest config (dict_set anonymized_data key value)
  end.

(** [_anonymize_data(self, data, config)] *)
Definition _anonymize_data `{Runtime} (data config : dict) : M dict :=
  anonymize_items data config [].

(** [config or self.config] *)
Definition config_or (config : option dict) (self_config : dict) : dict :=
  match config with
  | Some c => if truthy (VDict c) then c else self_config
  | None => self_config
  end.

(** [anonymize_json(self, data, config=None)] *)
Definition anonymize_json `{Runtime} (self_config : dict) (data : dict)
  (config : option dict) : M dict :=
  _anonymize_data data (config_or config self_config).

(** The loop of [anonymize_csv] over the rows. *)
Fixpoint anonymize_rows `{Runtime} (rows : list dict) (config : dict)
  (anonymized_data : list dict) : M (list dict) :=
  match rows with
  | [] => ret anonymized_data
  | row :: rest =>
      r <- _anonymize_data row config ;;
      anonymize_rows rest config (anonymized_data ++ [r])
  end.

(** [anonymize_csv(self, data, config=None)] *)
Definition anonymize_csv `{Runtime} (self_config : dict) (data : list dict)
  (config : option dict) : M (list dict) :=
  anonymize_rows data (config_or config self_config) [].

(** An ElementTree element: tag, attributes, text, tail and children.  The
    text is [None] or a string in a parsed document; masking stores what
    [_apply_masking_rule] returns. *)
Inductive Element : Type :=
| Elem (tag : string) (attrib : list (string * string)) (text : pyval)
       (tail : option string) (children : list Element).

Definition tag (e : Element) : string :=
  match e with Elem t _ _ _ _ => t end.
Definition attrib (e : Element) : list (string * string) :=
  match e with Elem _ a _ _ _ => a end.
Definition text (e : Element) : pyval :=
  match e with Elem _ _ x _ _ => x end.
Definition tail (e : Element) : option string :=
  match e with Elem _ _ _ tl _ => tl end.
Definition children (e : Element) : list Element :=
  match e with Elem _ _ _ _ cs => cs end.

(** [for x in xs: f(x)], collecting what each iteration leaves behind. *)
Definition for_each `{Runtime} {A B : Type} (f : A -> M B) : list A -> M (list B) :=
  fix loop (xs : list A) : M (list B) :=
    match xs with
    | [] => ret []
    | x :: rest => y <- f x ;; ys <- loop rest ;; ret (y :: ys)
    end.

(** One iteration of the loop [for child in element] of
    [_anonymize_xml_element]: the child's text is assigned when its tag is
    in the rule table, then the call recurses into the child, whose own
    children go through the same loop.  The tree is updated in place; here
    the updated child is returned. *)
Fixpoint anonymize_child `{Runtime} (config : dict) (child : Element)
  {struct child} : M Element :=
  match child with
  | Elem t a x tl gcs =>
      x' <- match dict_get config t with
            | Some rule => _apply_masking_rule rule
            | None => ret x
            end ;;
      gcs' <- for_each (anonymize_child config) gcs ;;
      ret (Elem t a x' tl gcs')
  end.

(** [_anonymize_xml_element(self, element, config)] *)
Definition _anonymize_xml_element `{Runtime} (element : Element) (config : dict)
  : M Element :=
  match element with
  | Elem t a x tl cs =>
      cs' <- for_each (anonymize_child config) cs ;; ret (Elem t a x tl cs')
  end.

(** [element.text = x] *)
Definition set_text (e : Element) (x : pyval) : Element :=
  match e with Elem t a _ tl cs => Elem t a x tl cs end.

(** ** A small deterministic runtime, used for the examples *)

Definition demo_fake (name : string) (w : Z) : result pyval * Z :=
  if String.eqb name "name" then (Ret (VStr "Alex Doe"), w + 1)
  else if String.eqb name "email" then (Ret (VStr "alex@example.org"), w + 1)
  else if String.eqb name "ssn" then (Ret (VStr "000-00-0000"), w + 1)
  else if String.eqb name "phone_number" then (Ret (VStr "5550100"), w + 1)
  else if String.eqb name "random_int" then (Ret (VInt (w mod 10000)), w + 1)
  else (Raise AttributeError, w).

Definition demo_runtime : Runtime := {|
  World := Z;
  fake_call := demo_fake;
  random_raw := fun w => (w, w + 1);
  py_eval_ext := fun _ w => (Raise AttributeError, w);
  py_str_ext := fun _ => "<object>"
|}.

(** The example data of the program's usage notes. *)

Definition demo_record : dict :=
  [ ("name", VStr "John Doe"); ("email", VStr "john.doe@example.com");
    ("age", VInt 30); ("phone", VStr "555-123-4567");
    ("ssn", VStr "123-45-6789") ].

Definition demo_record_2 : dict :=
  [ ("name", VStr "Jane Smith"); ("email", VStr "jane.smith@example.com");
    ("age", VInt 25); ("phone", VStr "555-987-6543");
    ("ssn", VStr "987-65-4321") ].

Definition demo_config : dict :=
  [ ("name", VStr "fake.name"); ("email", VStr "fake.email");
    ("age", VStr "random.randint(18, 65)");
    ("ssn", VStr "regex:^\d{3}-\d{2}-\d{4}$") ].

(** A table with an empty rule and a [randint] range that is empty. *)
Definition demo_config_bad : dict :=
  [ ("name", VStr ""); ("age", VStr "random.randint(65, 18)");
    ("email", VStr "fake.email") ].

Definition demo_person (name email : string) : Element :=
  Elem "person" [] (VStr " ") None
       [ Elem "name" [] (VStr name) None [];
         Elem "email" [] (VStr email) None [] ].

Definition demo_tree : Element :=
  Elem "root" [] (VStr "records") None
       [ demo_person "John Doe" "john.doe@example.com";
         demo_person "Jane Smith" "jane.smith@example.com" ].

(** A table that names the root's tag and a tag found at two depths. *)
Definition demo_tree_config : dict :=
  [ ("root", VStr "fake.name"); ("person", VStr "null");
    ("name", VStr "fake.name") ].

(** ** How computations end *)

(** [m] comes back with a value from every world. *)
Definition returns `{Runtime} {A : Type} (m : M A) : Prop :=
  forall w, exists a w', m w = (Ret a, w').

(** Every rule of the table comes back with a value when it is applied:
    no [BaseException] passes through the handler of
    [_apply_masking_rule]. *)
Definition config_returns `{Runtime} (config : dict) : Prop :=
  forall k rule, dict_get config k = Some rule ->
                 returns (_apply_masking_rule rule).

(** The collaborators raise nothing but subclasses of [Exception]. *)
Definition never_escapes (R : Runtime) : Prop :=
  forall s w e w',
    fake_call s w = (Raise e, w') \/ py_eval_ext s w = (Raise e, w') ->
    is_Exception e = true.

(** The three Faker providers the regex branch calls return strings. *)
Definition faker_returns_strings (R : Runtime) : Prop :=
  forall name w v w',
    In name ["ssn"; "email"; "phone_number"] ->
    fake_call name w = (Ret v, w') -> exists s, v = VStr s.

(** ** The regex table, as the specification words it *)

Definition REGEX_TABLE : list (string * string) :=
  [ (SSN_PATTERN, "ssn"); (EMAIL_PATTERN, "email");
    (PHONE_PATTERN, "phone_number") ].

(** [classify(pattern)]: the category of the first table entry whose pattern
    is this very string. *)
Fixpoint classify_in (table : list (string * string)) (pattern : string)
  : option string :=
  match table with
  | [] => None
  | (p, category) :: rest =>
      if String.eqb pattern p then Some category else classify_in rest pattern
  end.

Definition classify (pattern : string) : option string :=
  classify_in REGEX_TABLE pattern.

(** ** Positions in an element tree *)

(** The element reached from [e] by taking, at each step, the child with
    the given index. *)
Fixpoint descend (path : list nat) (e : Element) : option Element :=
  match path with
  | [] => Some e
  | i :: rest =>
      match nth_error (children e) i with
      | Some c => descend rest c
      | None => None
      end
  end.

(** The tree without its text contents: tags, attributes, tails, nesting
    and child order. *)
Fixpoint shape (e : Element) : Element :=
  match e with
  | Elem t a _ tl cs => Elem t a VNone tl (map shape cs)
  end.

(** An element and all below it, parents before their children and earlier
    siblings (with all below them) before later ones. *)
Fixpoint preorder (e : Element) : list Element :=
  match e with
  | Elem _ _ _ _ cs => e :: flat_map preorder cs
  end.

Definition descendants (e : Element) : list Element :=
  flat_map preorder (children e).

(** The rules of the elements of [es] whose tag is in the table. *)
Fixpoint rules_of (config : dict) (es : list Element) : list pyval :=
  match es with
  | [] => []
  | e :: rest =>
      match dict_get config (tag e) with
      | Some rule => rule :: rules_of config rest
      | None => rules_of config rest
      end
  end.

(** The texts of the elements of [es] whose tag is in the table. *)
Fixpoint texts_of (config : dict) (es : list Element) : list pyval :=
  match es with
  | [] => []
  | e :: rest =>
      match dict_get config (tag e) with
      | Some _ => text e :: texts_of config rest
      | None => texts_of config rest
      end
  end.

(** The bounds of a rule of the shape [random.randint(min, max)]. *)
Definition randint_bounds (rule : string) : option (Z * Z) :=
  match parse_random_call rule with
  | Some (name, [a; b]) =>
      if String.eqb name "randint" then Some (a, b) else None
  | _ => None
  end.

(** The rule text [random.randint(a, b)] for two integers. *)
Definition randint_rule (a b : Z) : string :=
  "random.randint(" ++ str_of_int a ++ ", " ++ str_of_int b ++ ")".

(** The text after a number does not go on with a digit. *)
Definition no_digit_head (s : string) : Prop :=
  match s with
  | String c _ => is_digit c = false
  | EmptyString => True
  end.

(** ** The rule parser, as the specification words it

    The program has no parser of its own: [_apply_masking_rule] dispatches
    on the rule string and evaluates it in one go.  The specification
    describes a parser into the variants below; it is stated here to compare
    the two. *)

Inductive Rule : Type :=
| Literal (value : string)
| SyntheticField (name : string)
| RandomInt (min max : Z)
| Null
| RegexClass (pattern : string)
| Invalid (raw : string).

Definition RuleParser_parse (raw : string) : Rule :=
  if String.eqb raw "null" then Null
  else if startswith raw "fake." then SyntheticField (slice_from 5 raw)
  else if startswith raw "random." then
    match randint_bounds raw with
    | Some (a, b) => RandomInt a b
    | None => Invalid raw
    end
  else if startswith raw "regex:" then RegexClass (slice_from 6 raw)
  else Literal raw.

(** ** One field of a record *)

(** One iteration of the loop of [_anonymize_data]: the key, and the value
    that is stored under it. *)
Definition mask_field `{Runtime} (config : dict) (item : string * pyval)
  : M (string * pyval) :=
  let (key, value) := item in
  let rule := get_or_none config key in
  if truthy rule then v <- _apply_masking_rule rule ;; ret (key, v)
  else ret (key, value).

(** What one field becomes: the key stays; the value is what the rule of
    the key returned in some world when that rule is truthy, and the
    original value otherwise. *)
Definition field_masked `{Runtime} (config : dict)
  (item item' : string * pyval) : Prop :=
  fst item' = fst item
  /\ if truthy (get_or_none config (fst item)) then
       exists w0 w1,
         _apply_masking_rule (get_or_none config (fst item)) w0
         = (Ret (snd item'), w1)
     else snd item' = snd item.

(** Evaluating the rule fails in every world with a subclass of
    [Exception]. *)
Definition rule_fails `{Runtime} (rule : pyval) : Prop :=
  forall w, exists e w',
    masking_rule_body rule w = (Raise e, w') /\ is_Exception e = true.

(** ** One element of a tree *)

(** What the text of an element with tag [t] becomes when the loop passes
    over it: what the rule of the tag returned in some world, or the text
    it had when the table has no such tag. *)
Definition text_masked `{Runtime} (config : dict) (t : string)
  (x x' : pyval) : Prop :=
  match dict_get config t with
  | Some rule => exists w0 w1, _apply_masking_rule rule w0 = (Ret x', w1)
  | None => x' = x
  end.

(** [c'] is what one iteration of the loop makes of the child [c]. *)
Definition child_masked `{Runtime} (config : dict) (c c' : Element) : Prop :=
  exists w0 w1, anonymize_child config c w0 = (Ret c', w1).

(** A run that started in [w] behaved as the rule applications of the
    elements [before] that have a rule, taken in list order: the values they
    returned are the texts found in the result (read off by [below]), in the
    same order, and the world is the one they leave.  A [BaseException]
    stops both at the same point. *)
Definition in_preorder `{Runtime} (config : dict) {A : Type}
  (below : A -> list Element) (run : result A * World) (w : World)
  (before : list Element) : Prop :=
  match run with
  | (Ret a, w') =>
      for_each _apply_masking_rule (rules_of config before) w
      = (Ret (texts_of config (below a)), w')
  | (Raise e, w') =>
      for_each _apply_masking_rule (rules_of config before) w
      = (Raise e, w')
  end.

(** Two runs end alike: both return, in the same world, values related by
    [P], or both raise the same exception in the same world. *)
Definition ends_alike `{Runtime} {A : Type} (P : A -> A -> Prop)
  (run1 run2 : result A * World) : Prop :=
  match run1, run2 with
  | (Ret a1, w1), (Ret a2, w2) => w1 = w2 /\ P a1 a2
  | (Raise e1, w1), (Raise e2, w2) => e1 = e2 /\ w1 = w2
  | _, _ => False
  end.

(** ** Decoded input of any kind *)

(** [anonymize_json] on whatever [json.load] returned, as [main] calls it:
    [_anonymize_data] starts with [data.items()], which only a dict has. *)
Definition anonymize_json_decoded `{Runtime} (self_config : dict)
  (data : pyval) (config : option dict) : M dict :=
  match data with
  | VDict d => anonymize_json self_config d config
  | _ => raise AttributeError
  end.

(** ** Rules that need no collaborator *)

(** A rule whose evaluation calls neither Faker nor [eval]: a string without
    one of the prefixes ["fake."], ["random."], ["regex:"], or a value that
    is no string. *)
Definition static_rule (rule : pyval) : bool :=
  match rule with
  | VStr r =>
      negb (startswith r "fake.") && negb (startswith r "random.")
      && negb (startswith r "regex:")
  | _ => true
  end.

(** What such a rule evaluates to. *)
Definition static_value (rule : pyval) : pyval :=
  match rule with
  | VStr r => if String.eqb r "null" then VNone else VStr r
  | _ => MASKING_ERROR
  end.

Definition static_config (config : dict) : Prop :=
  forall k rule, dict_get config k = Some rule -> static_rule rule = true.

(** One field under a table of static rules. *)
Definition mask_static (config : dict) (item : string * pyval)
  : string * pyval :=
  let (key, value) := item in
  let rule := get_or_none config key in
  (key, if truthy rule then static_value rule else value).

(** ** The rules a record sets off *)

(** The truthy rules of the keys [ks], in the order of the keys. *)
Fixpoint truthy_rules (config : dict) (ks : list string) : list pyval :=
  match ks with
  | [] => []
  | k :: rest =>
      if truthy (get_or_none config k)
      then get_or_none config k :: truthy_rules config rest
      else truthy_rules config rest
  end.

(** The values of [d] under the keys that have a truthy rule, in order. *)
Fixpoint masked_values (config : dict) (d : dict) : list pyval :=
  match d with
  | [] => []
  | (k, v) :: rest =>
      if truthy (get_or_none config k) then v :: masked_values config rest
      else masked_values config rest
  end.

(** Two records agree under every key that has a truthy rule. *)
Definition agree_on_masked (config : dict) (o1 o2 : dict) : Prop :=
  keys o1 = keys o2
  /\ forall k, truthy (get_or_none config k) = true ->
               dict_get o1 k = dict_get o2 k.

(** Items with the same key, and the same value when the key is masked. *)
Definition same_masked (config : dict) (i1 i2 : string * pyval) : Prop :=
  fst i1 = fst i2
  /\ (truthy (get_or_none config (fst i1)) = true -> snd i1 = snd i2).

(** ** What a rule yields, by kind of rule *)



(** * Properties *)

(** ** The monad *)

Section MonadFacts.
Context `{R : Runtime}.

Lemma bind_ret_inv {A B : Type} (m : M A) (k : A -> M B) w b w' :
  bind m k w = (Ret b, w') ->
  exists a w1, m w = (Ret a, w1) /\ k a w1 = (Ret b, w').
Proof.
  unfold bind. destruct (m w) as [[a | e] w1]; intros E.
  - eauto.
  - discriminate.
Qed.

Lemma bind_ret_intro {A B : Type} (m : M A) (k : A -> M B) w a w1 :
  m w = (Ret a, w1) -> bind m k w = k a w1.
Proof. unfold bind. intros ->. reflexivity. Qed.

Lemma returns_ret {A : Type} (a : A) : returns (ret a).
Proof. intros w. exists a, w. reflexivity. Qed.

Lemma returns_bind {A B : Type} (m : M A) (k : A -> M B) :
  returns m -> (forall a, returns (k a)) -> returns (bind m k).
Proof.
  intros Hm Hk w. destruct (Hm w) as (a & w1 & E).
  destruct (Hk a w1) as (b & w2 & E2).
  exists b, w2. rewrite (bind_ret_intro _ _ _ _ _ E). exact E2.
Qed.

Lemma returns_for_each {A B : Type} (f : A -> M B) (xs : list A) :
  (forall x, In x xs -> returns (f x)) -> returns (for_each f xs).
Proof.
  induction xs as [| x rest IH]; intros Hf; simpl.
  - apply returns_ret.
  - apply returns_bind; [apply Hf; left; reflexivity |].
    intros y. apply returns_bind.
    + apply IH. intros x' Hx'. apply Hf. right. exact Hx'.
    + intros ys. apply returns_ret.
Qed.

(** What [for_each] returns, element by element: the [i]-th result comes
    from the [i]-th input, run in the world the earlier ones left. *)
Lemma for_each_ret_inv {A B : Type} (f : A -> M B) (xs : list A) :
  forall w ys w',
    for_each f xs w = (Ret ys, w') ->
    Forall2 (fun x y => exists w0 w1, f x w0 = (Ret y, w1)) xs ys.
Proof.
  induction xs as [| x rest IH]; intros w ys w' E; simpl in E.
  - inversion E. constructor.
  - apply bind_ret_inv in E. destruct E as (y & w1 & Ey & E).
    apply bind_ret_inv in E. destruct E as (ys' & w2 & Eys & E).
    inversion E; subst. constructor; eauto.
Qed.

Lemma for_each_app {A B : Type} (f : A -> M B) (xs1 xs2 : list A) :
  forall w,
    for_each f (xs1 ++ xs2) w
    = (ys1 <- for_each f xs1 ;; ys2 <- for_each f xs2 ;; ret (ys1 ++ ys2)%list) w.
Proof.
  induction xs1 as [| x rest IH]; intros w; simpl.
  - unfold bind, ret.
    destruct (for_each f xs2 w) as [[ys | e] w1]; reflexivity.
  - unfold bind at 1 3 4. destruct (f x w) as [[y | e] w1]; [| reflexivity].
    unfold bind at 1. rewrite IH. unfold bind, ret.
    destruct (for_each f rest w1) as [[ys1 | e] w2]; [| reflexivity].
    destruct (for_each f xs2 w2) as [[ys2 | e] w3]; reflexivity.
Qed.

End MonadFacts.

(** ** Applying one rule *)

Section RuleFacts.
Context `{R : Runtime}.

Lemma apply_masking_rule_ret rule w v w1 :
  masking_rule_body rule w = (Ret v, w1) ->
  _apply_masking_rule rule w = (Ret v, w1).
Proof. unfold _apply_masking_rule, try_except. intros ->. reflexivity. Qed.

Lemma apply_masking_rule_caught rule w e w1 :
  masking_rule_body rule w = (Raise e, w1) ->
  is_Exception e = true ->
  _apply_masking_rule rule w = (Ret MASKING_ERROR, w1).
Proof.
  unfold _apply_masking_rule, try_except. intros -> ->. reflexivity.
Qed.

(** Only a [BaseException] gets past the handler. *)
Lemma apply_masking_rule_raise rule w e w1 :
  _apply_masking_rule rule w = (Raise e, w1) -> is_Exception e = false.
Proof.
  unfold _apply_masking_rule, try_except.
  destruct (masking_rule_body rule w) as [[v | e0] w0]; [discriminate |].
  destruct (is_Exception e0) eqn:E0; [discriminate |].
  intros E. inversion E; subst. exact E0.
Qed.

Lemma startswith_random_not_fake r :
  startswith r "random." = true -> startswith r "fake." = false.
Proof.
  destruct r as [| c r']; cbn [startswith]; [discriminate |].
  destruct (Ascii.eqb_spec "r" c) as [<- | _]; cbn [andb]; intros Hr;
    [reflexivity | discriminate Hr].
Qed.

Lemma parse_random_call_prefix rule name args :
  parse_random_call rule = Some (name, args) ->
  startswith rule "random." = true.
Proof.
  unfold parse_random_call.
  destruct (startswith rule "random."); [reflexivity | discriminate].
Qed.

(** A rule with the prefix ["random."] is evaluated as an expression. *)
Lemma random_rule_is_evaluated rule w :
  startswith rule "random." = true ->
  _apply_masking_rule (VStr rule) w
  = try_except (v <- py_eval rule ;; ret (VStr (py_str v)))
               (fun _ => ret MASKING_ERROR) w.
Proof.
  intros Hp. unfold _apply_masking_rule, masking_rule_body.
  rewrite (startswith_random_not_fake _ Hp), Hp. reflexivity.
Qed.

Lemma randbelow_range n w :
  0 < n -> exists k w', randbelow n w = (Ret k, w') /\ 0 <= k < n.
Proof.
  intros Hn. unfold randbelow. destruct (random_raw w) as [r w'].
  exists (r mod n), w'. split; [reflexivity |].
  apply Z.mod_pos_bound. exact Hn.
Qed.

Lemma randint_range a b w :
  a <= b ->
  exists n w', randint a b w = (Ret (VInt n), w') /\ a <= n <= b.
Proof.
  intros Hab. unfold randint, randrange.
  destruct (Z.ltb_spec a (b + 1)) as [_ | Hno]; [| lia].
  destruct (randbelow_range (b + 1 - a) w) as (k & w' & Ek & Hk); [lia |].
  exists (a + k), w'. split; [| lia].
  unfold bind. rewrite Ek. reflexivity.
Qed.

Lemma randint_empty a b w :
  b < a -> randint a b w = (Raise ValueError, w).
Proof.
  intros Hab. unfold randint, randrange.
  destruct (Z.ltb_spec a (b + 1)) as [Hno | _]; [lia | reflexivity].
Qed.

Lemma py_eval_randint rule a b :
  randint_bounds rule = Some (a, b) -> py_eval rule = randint a b.
Proof.
  unfold randint_bounds, py_eval.
  destruct (parse_random_call rule) as [[name args] |]; [| discriminate].
  destruct args as [| a' [| b' [| c rest]]]; try discriminate.
  destruct (String.eqb name "randint") eqn:En; [| discriminate].
  intros E. inversion E; subst. unfold random_call. rewrite En. reflexivity.
Qed.

Lemma randint_bounds_prefix rule a b :
  randint_bounds rule = Some (a, b) -> startswith rule "random." = true.
Proof.
  unfold randint_bounds.
  destruct (parse_random_call rule) as [[name args] |] eqn:E; [| discriminate].
  intros _. exact (parse_random_call_prefix _ _ _ E).
Qed.

(** When the collaborators raise only subclasses of [Exception], every
    rule comes back with a value. *)
Lemma never_escapes_returns rule :
  never_escapes R -> returns (_apply_masking_rule rule).
Proof.
  intros Hne w.
  destruct (_apply_masking_rule rule w) as [[v | e] w1] eqn:E; [eauto |].
  exfalso. pose proof (apply_masking_rule_raise _ _ _ _ E) as Hb.
  unfold _apply_masking_rule, try_except in E.
  destruct (masking_rule_body rule w) as [[v0 | e0] w0] eqn:Eb;
    [discriminate |].
  destruct (is_Exception e0) eqn:E0; [discriminate |].
  inversion E; subst e0 w0. clear E.
  assert (Hgen : forall p, _generate_masked_value_from_regex p w
                           = (Raise e, w1) -> False).
  { intros p. unfold _generate_masked_value_from_regex.
    repeat match goal with
           | |- context [if ?c then _ else _] => destruct c
           end; intros Ep; try discriminate;
      (assert (is_Exception e = true) by (eapply Hne; left; exact Ep));
      congruence. }
  destruct rule; unfold masking_rule_body, raise in Eb;
    try (inversion Eb; subst; discriminate).
  destruct (startswith s "fake.").
  { unfold bind in Eb. destruct (fake_call _ w) as [[v0 | e0] w0] eqn:Ef;
      [discriminate |].
    inversion Eb; subst.
    assert (is_Exception e = true) by (eapply Hne; left; exact Ef).
    congruence. }
  destruct (startswith s "random.").
  { unfold bind in Eb. destruct (py_eval s w) as [[v0 | e0] w0] eqn:Ee;
      [discriminate |].
    inversion Eb; subst. unfold py_eval in Ee.
    assert (Hext : py_eval_ext s w = (Raise e, w1) -> False).
    { intros Ex.
      assert (is_Exception e = true) by (eapply Hne; right; exact Ex).
      congruence. }
    destruct (parse_random_call s) as [[name args] |]; [| auto].
    unfold random_call in Ee.
    destruct (String.eqb name "randint").
    { destruct args as [| a [| b [| c rest]]];
        try (inversion Ee; subst; discriminate).
      unfold randint, randrange in Ee.
      destruct (a <? b + 1).
      - unfold bind, randbelow in Ee.
        destruct (random_raw w); discriminate.
      - inversion Ee; subst; discriminate. }
    destruct (String.eqb name "randrange"); [| auto].
    destruct args as [| a [| b [| c rest]]]; auto;
      unfold randrange in Ee;
      match type of Ee with
      | context [if ?c then _ else _] => destruct c
      end;
      try (unfold bind, randbelow in Ee;
           destruct (random_raw w); discriminate);
      inversion Ee; subst; discriminate. }
  destruct (String.eqb s "null"); [discriminate |].
  destruct (startswith s "regex:"); [eauto | discriminate].
Qed.

End RuleFacts.

Section RuleClaims.
Context `{R : Runtime}.

Lemma apply_randint rule a b w :
  randint_bounds rule = Some (a, b) -> a <= b ->
  exists n w',
    a <= n <= b
    /\ _apply_masking_rule (VStr rule) w = (Ret (VStr (str_of_int n)), w').
Proof.
  intros Hs Hab.
  rewrite (random_rule_is_evaluated _ _ (randint_bounds_prefix _ _ _ Hs)).
  rewrite (py_eval_randint _ _ _ Hs).
  destruct (randint_range a b w Hab) as (n & w' & En & Hn).
  exists n, w'. split; [exact Hn |].
  unfold try_except, bind. rewrite En. reflexivity.
Qed.

(** The value of [random.randrange(5,6)] is 5 whatever the generator
    draws, so the rule masks with ["5"] under every runtime. *)
Lemma apply_randrange_5_6 w :
  exists w',
    _apply_masking_rule (VStr "random.randrange(5,6)") w
    = (Ret (VStr "5"), w').
Proof.
  unfold _apply_masking_rule, try_except, masking_rule_body.
  cbn [startswith andb Ascii.eqb Bool.eqb].
  change (py_eval "random.randrange(5,6)") with (randrange 5 6).
  unfold randrange. cbn [Z.ltb Z.compare Pos.compare Pos.compare_cont].
  unfold bind, randbelow, ret.
  destruct (random_raw w) as [r w']. exists w'.
  replace (r mod (6 - 5)) with 0 by (symmetry; apply Z.mod_1_r).
  reflexivity.
Qed.

End RuleClaims.

(** ** Integer literals *)

Lemma to_uint_no_leading_zero (p : positive) (d : Decimal.uint) :
  Pos.to_uint p <> Decimal.D0 d.
Proof.
  intros E.
  assert (Hn : Decimal.unorm (Pos.to_uint p) = Pos.to_uint p).
  { rewrite <- (DecimalPos.Unsigned.to_of (Pos.to_uint p)).
    rewrite DecimalPos.Unsigned.of_to. reflexivity. }
  rewrite E in Hn. rewrite DecimalFacts.unorm_D0 in Hn.
  unfold Decimal.unorm in Hn.
  destruct (Decimal.nzhead d) eqn:Ed;
    try (exact (DecimalFacts.nzhead_nonzero _ _ (eq_trans Ed Hn)));
    try discriminate Hn.
  inversion Hn; subst d.
  exact (DecimalPos.Unsigned.to_uint_nonzero p E).
Qed.

Lemma span_digits_stop (rest : string) :
  no_digit_head rest -> span is_digit rest = (EmptyString, rest).
Proof.
  destruct rest as [| c r]; simpl; [reflexivity |].
  intros ->. reflexivity.
Qed.

Lemma span_digits_render (d : Decimal.uint) (rest : string) :
  no_digit_head rest ->
  span is_digit (NilEmpty.string_of_uint d ++ rest)
  = (NilEmpty.string_of_uint d, rest).
Proof.
  intros Hrest. induction d; cbn [NilEmpty.string_of_uint append];
    try (cbn [span]; change (is_digit _) with true; cbv iota;
         rewrite IHd; reflexivity).
  apply span_digits_stop. exact Hrest.
Qed.

Lemma leading_zero_ok_render (d : Decimal.uint) :
  d <> Decimal.Nil -> (forall d', d <> Decimal.D0 d') ->
  leading_zero_ok (NilEmpty.string_of_uint d) = true.
Proof.
  intros Hnil Hzero. destruct d; try reflexivity.
  - destruct (Hnil eq_refl).
  - destruct (Hzero _ eq_refl).
Qed.

Lemma parse_digits_render (p : positive) (rest : string) :
  no_digit_head rest ->
  span is_digit (NilEmpty.string_of_uint (Pos.to_uint p) ++ rest)
  = (NilEmpty.string_of_uint (Pos.to_uint p), rest)
  /\ leading_zero_ok (NilEmpty.string_of_uint (Pos.to_uint p)) = true
  /\ NilZero.uint_of_string (NilEmpty.string_of_uint (Pos.to_uint p))
     = Some (Pos.to_uint p)
  /\ Z.of_uint (Pos.to_uint p) = Z.pos p.
Proof.
  intros Hrest. split; [apply span_digits_render; exact Hrest |].
  pose proof (DecimalPos.Unsigned.to_uint_nonnil p) as Hnil.
  split.
  { apply leading_zero_ok_render;
      [exact Hnil | intros d'; apply to_uint_no_leading_zero]. }
  split.
  { rewrite <- (NilZero.usu _ Hnil). unfold NilZero.string_of_uint.
    destruct (Pos.to_uint p); [destruct (Hnil eq_refl) | reflexivity ..]. }
  unfold Z.of_uint. rewrite DecimalPos.Unsigned.of_to. reflexivity.
Qed.

(** The first character of the digits of a positive number is a digit. *)
Lemma digits_head (p : positive) :
  exists c s,
    NilEmpty.string_of_uint (Pos.to_uint p) = String c s
    /\ is_digit c = true.
Proof.
  pose proof (DecimalPos.Unsigned.to_uint_nonnil p) as Hnil.
  destruct (Pos.to_uint p); [destruct (Hnil eq_refl) | ..];
    cbn [NilEmpty.string_of_uint]; eauto.
Qed.

Lemma str_of_int_pos (p : positive) :
  str_of_int (Z.pos p) = NilEmpty.string_of_uint (Pos.to_uint p).
Proof.
  unfold str_of_int. cbn [Z.to_int NilZero.string_of_int].
  unfold NilZero.string_of_uint.
  pose proof (DecimalPos.Unsigned.to_uint_nonnil p) as Hnil.
  destruct (Pos.to_uint p); [destruct (Hnil eq_refl) | reflexivity ..].
Qed.

Lemma str_of_int_neg (p : positive) :
  str_of_int (Z.neg p)
  = String "-" (NilEmpty.string_of_uint (Pos.to_uint p)).
Proof.
  unfold str_of_int. cbn [Z.to_int NilZero.string_of_int].
  unfold NilZero.string_of_uint.
  pose proof (DecimalPos.Unsigned.to_uint_nonnil p) as Hnil.
  destruct (Pos.to_uint p); [destruct (Hnil eq_refl) | reflexivity ..].
Qed.

(** The rendering of an integer starts with a minus sign or a digit. *)
Lemma str_of_int_head (z : Z) :
  exists c s,
    str_of_int z = String c s /\ (c = "-"%char \/ is_digit c = true).
Proof.
  destruct z as [| p | p].
  - exists "0"%char, EmptyString. split; [reflexivity | right; reflexivity].
  - rewrite str_of_int_pos. destruct (digits_head p) as (c & s & -> & Hc).
    eauto.
  - rewrite str_of_int_neg. eauto.
Qed.

Lemma parse_int_literal_digits (c : ascii) (s rest : string)
  (u : Decimal.uint) :
  Ascii.eqb c "-" = false ->
  span is_digit (String c s ++ rest) = (String c s, rest) ->
  leading_zero_ok (String c s) = true ->
  NilZero.uint_of_string (String c s) = Some u ->
  parse_int_literal (String c s ++ rest) = Some (Z.of_uint u, rest).
Proof.
  intros Hm Hs Hz Hu. unfold parse_int_literal.
  change (String c s ++ rest) with (String c (s ++ rest)) at 1.
  cbv iota beta. rewrite Hm. rewrite Hs, Hz, Hu. reflexivity.
Qed.

Lemma parse_int_literal_minus (ds rest : string) (u : Decimal.uint) :
  span is_digit (ds ++ rest) = (ds, rest) ->
  leading_zero_ok ds = true ->
  NilZero.uint_of_string ds = Some u ->
  parse_int_literal (String "-" ds ++ rest) = Some (- Z.of_uint u, rest).
Proof.
  intros Hs Hz Hu. unfold parse_int_literal.
  change (String "-" ds ++ rest) with (String "-" (ds ++ rest)).
  cbv iota beta. change (Ascii.eqb "-" "-") with true. cbv iota.
  rewrite Hs, Hz, Hu. reflexivity.
Qed.

(** Reading back the decimal rendering of an integer gives the integer. *)
Lemma parse_int_literal_render (z : Z) (rest : string) :
  no_digit_head rest ->
  parse_int_literal (str_of_int z ++ rest) = Some (z, rest).
Proof.
  intros Hrest. destruct z as [| p | p].
  - change (str_of_int 0) with (String "0" EmptyString).
    apply (parse_int_literal_digits "0" EmptyString rest (Decimal.D0 Decimal.Nil));
      try reflexivity.
    cbn [append span]. change (is_digit "0") with true. cbv iota.
    rewrite (span_digits_stop _ Hrest). reflexivity.
  - rewrite str_of_int_pos.
    destruct (parse_digits_render p rest Hrest) as (Hs & Hz & Hu & Hv).
    destruct (digits_head p) as (c & s & Ec & Hc).
    rewrite Ec in *. rewrite <- Hv.
    apply parse_int_literal_digits; try assumption.
    destruct (Ascii.eqb_spec c "-") as [-> |]; [discriminate | reflexivity].
  - rewrite str_of_int_neg.
    destruct (parse_digits_render p rest Hrest) as (Hs & Hz & Hu & Hv).
    change (Z.neg p) with (- Z.pos p). rewrite <- Hv.
    apply parse_int_literal_minus; assumption.
Qed.

Lemma skip_spaces_number (z : Z) (rest : string) :
  skip_spaces (str_of_int z ++ rest) = str_of_int z ++ rest.
Proof.
  destruct (str_of_int_head z) as (c & s & -> & Hc). cbn [append skip_spaces].
  destruct (Ascii.eqb_spec c " ") as [-> |]; [| reflexivity].
  destruct Hc as [Hc | Hc]; discriminate Hc.
Qed.

Lemma length_append_cons (s t : string) (c : ascii) :
  exists n, String.length (s ++ String c t) = S n.
Proof. destruct s; cbn [append String.length]; eauto. Qed.

Lemma parse_args_render (n : nat) (a b : Z) :
  parse_args (S (S n)) (str_of_int a ++ ", " ++ str_of_int b ++ ")")
  = Some ([a; b], EmptyString).
Proof.
  cbn [parse_args]. rewrite skip_spaces_number.
  rewrite parse_int_literal_render by reflexivity.
  cbn [append skip_spaces Ascii.eqb Bool.eqb]. rewrite skip_spaces_number.
  rewrite parse_int_literal_render by reflexivity.
  reflexivity.
Qed.

Lemma parse_random_call_randint (args : string) :
  parse_random_call ("random.randint(" ++ args)
  = match
      match skip_spaces args with
      | String d r2 =>
          if Ascii.eqb d ")" then Some ([], r2)
          else parse_args (String.length args) args
      | EmptyString => None
      end
    with
    | Some (ns, t) =>
        match skip_spaces t with
        | EmptyString => Some ("randint", ns)
        | String _ _ => None
        end
    | None => None
    end.
Proof. reflexivity. Qed.

(** The rule text [random.randint(a, b)] is read back as the call of
    [randint] on [a] and [b], for all integers. *)
Lemma randint_bounds_render (a b : Z) :
  randint_bounds (randint_rule a b) = Some (a, b).
Proof.
  unfold randint_bounds, randint_rule.
  rewrite parse_random_call_randint, skip_spaces_number.
  destruct (str_of_int_head a) as (c & s & Ea & Hc).
  assert (Hparen : Ascii.eqb c ")" = false).
  { destruct (Ascii.eqb_spec c ")") as [-> |]; [| reflexivity].
    destruct Hc as [Hc | Hc]; discriminate Hc. }
  assert (Hfuel : exists n,
             String.length (str_of_int a ++ ", " ++ str_of_int b ++ ")")
             = S (S n)).
  { rewrite Ea. cbn [append String.length].
    match goal with
    | |- context [String.length (s ++ String ?c ?t)] =>
        destruct (length_append_cons s t c) as (n & ->)
    end.
    eauto. }
  destruct Hfuel as (n & ->). rewrite parse_args_render.
  rewrite Ea. cbn [append]. rewrite Hparen. reflexivity.
Qed.

(** ** Claims about one rule *)

(** C1 (as the program has it).  A rule string with the prefix ["random."]
    is evaluated as a Python expression: the masked value is [str] of the
    value of the expression, or the error marker when the evaluation raises
    a subclass of [Exception].  When the string has the shape
    [random.randint(min, max)] with two integer literals and [min <= max],
    every evaluation yields the decimal string of an integer within
    [[min, max]] inclusive; the text [random.randint(min, max)] has that
    shape for all integers [min] and [max]. *)
Theorem random_rule_is_evaluated_and_randint_in_range :
  forall (R : Runtime) (rule : string) (w : World),
    startswith rule "random." = true ->
    _apply_masking_rule (VStr rule) w
    = try_except (v <- py_eval rule ;; ret (VStr (py_str v)))
                 (fun _ => ret MASKING_ERROR) w
    /\ (forall a b,
           randint_bounds rule = Some (a, b) -> a <= b ->
           exists n w',
             a <= n <= b
             /\ _apply_masking_rule (VStr rule) w
                = (Ret (VStr (str_of_int n)), w'))
    /\ (forall a b,
           a <= b ->
           exists n w',
             a <= n <= b
             /\ _apply_masking_rule (VStr (randint_rule a b)) w
                = (Ret (VStr (str_of_int n)), w')).
Proof.
  intros R rule w Hp. split; [| split].
  - apply random_rule_is_evaluated. exact Hp.
  - intros a b Hs Hab. apply apply_randint; assumption.
  - intros a b Hab. apply apply_randint; [| assumption].
    apply randint_bounds_render.
Qed.

Lemma random_rule_is_evaluated_and_randint_in_range_witness :
  startswith "random.randint(18,65)" "random." = true
  /\ randint_bounds "random.randint(18,65)" = Some (18, 65)
  /\ exists n w',
       18 <= n <= 65
       /\ @_apply_masking_rule demo_runtime (VStr "random.randint(18,65)") 1000
          = (Ret (VStr (str_of_int n)), w').
Proof.
  split; [reflexivity |]. split; [reflexivity |].
  refine (proj1 (proj2 (random_rule_is_evaluated_and_randint_in_range
                          demo_runtime "random.randint(18,65)" 1000 _))
                18 65 _ _).
  - reflexivity.
  - reflexivity.
  - lia.
Defined.

(** C1 (as stated) fails: [random.randrange(5,6)] has the prefix but not the
    shape [randint(min, max)], the specification's parser makes it
    [Invalid], and yet the program executes it and masks with its value. *)
Lemma random_rule_executed_counterexample :
  startswith "random.randrange(5,6)" "random." = true
  /\ RuleParser_parse "random.randrange(5,6)" = Invalid "random.randrange(5,6)"
  /\ @_apply_masking_rule demo_runtime (VStr "random.randrange(5,6)") 0
     = (Ret (VStr "5"), 1)
  /\ VStr "5" <> MASKING_ERROR.
Proof.
  split; [reflexivity |]. split; [reflexivity |]. split; [reflexivity |].
  discriminate.
Qed.

(** C4.  The regex branch classifies the declared pattern by exact string
    match against the fixed table: the SSN, e-mail and phone patterns
    delegate to the matching Faker provider, and every other pattern
    evaluates to ["[MASKED_VALUE]"], without an error, in
    [_generate_masked_value_from_regex] and through
    [_apply_masking_rule]. *)
Theorem regex_rule_classification :
  forall (R : Runtime) (pattern : string) (w : World),
    _generate_masked_value_from_regex pattern w
    = match classify pattern with
      | Some category => fake_call category w
      | None => (Ret MASKED_VALUE, w)
      end
    /\ _apply_masking_rule (VStr ("regex:" ++ pattern)) w
       = match classify pattern with
         | Some category =>
             try_except (fake_call category) (fun _ => ret MASKING_ERROR) w
         | None => (Ret MASKED_VALUE, w)
         end
    /\ classify SSN_PATTERN = Some "ssn"
    /\ classify EMAIL_PATTERN = Some "email"
    /\ classify PHONE_PATTERN = Some "phone_number"
    /\ (classify pattern = None <->
        pattern <> SSN_PATTERN /\ pattern <> EMAIL_PATTERN
        /\ pattern <> PHONE_PATTERN).
Proof.
  intros R pattern w.
  assert (Hgen : _generate_masked_value_from_regex pattern w
                 = match classify pattern with
                   | Some category => fake_call category w
                   | None => (Ret MASKED_VALUE, w)
                   end).
  { unfold _generate_masked_value_from_regex, classify, REGEX_TABLE.
    cbn [classify_in].
    destruct (String.eqb pattern SSN_PATTERN); [reflexivity |].
    destruct (String.eqb pattern EMAIL_PATTERN); [reflexivity |].
    destruct (String.eqb pattern PHONE_PATTERN); reflexivity. }
  split; [exact Hgen |]. split.
  - unfold _apply_masking_rule, try_except, masking_rule_body.
    change (startswith ("regex:" ++ pattern) "fake.") with false.
    change (startswith ("regex:" ++ pattern) "random.") with false.
    change (String.eqb ("regex:" ++ pattern) "null") with false.
    change (startswith ("regex:" ++ pattern) "regex:") with true.
    change (slice_from 6 ("regex:" ++ pattern)) with pattern.
    cbv iota. rewrite Hgen.
    destruct (classify pattern) as [category |]; reflexivity.
  - split; [reflexivity |]. split; [reflexivity |]. split; [reflexivity |].
    unfold classify, REGEX_TABLE. cbn [classify_in].
    destruct (String.eqb_spec pattern SSN_PATTERN) as [-> | H1].
    { split; [discriminate | intros (H & _); congruence]. }
    destruct (String.eqb_spec pattern EMAIL_PATTERN) as [-> | H2].
    { split; [discriminate | intros (_ & H & _); congruence]. }
    destruct (String.eqb_spec pattern PHONE_PATTERN) as [-> | H3].
    { split; [discriminate | intros (_ & _ & H); congruence]. }
    split; auto.
Qed.

(** C6.  The exact rule string ["null"] is the null rule: applying it
    yields [None], the absence marker, and not the string ["null"]; the
    world is left as it was. *)
Theorem null_rule_yields_none :
  forall (R : Runtime) (w : World),
    _apply_masking_rule (VStr "null") w = (Ret VNone, w)
    /\ VNone <> VStr "null"
    /\ RuleParser_parse "null" = Null.
Proof.
  intros R w. split; [reflexivity |]. split; [discriminate | reflexivity].
Qed.

(** C10.  For every rule string other than ["null"], whatever
    [_apply_masking_rule] returns is a string (the Faker providers of the
    regex branch returning strings): the results of a synthetic field and of
    a [random.] expression go through [str], so that a [randint] rule gives
    the decimal rendering of the integer drawn; a rule without a recognised
    prefix yields the rule string itself. *)
Theorem masked_value_is_string :
  forall (R : Runtime) (r : string) (w : World) (v : pyval) (w' : World),
    faker_returns_strings R ->
    r <> "null" ->
    _apply_masking_rule (VStr r) w = (Ret v, w') ->
    exists s,
      v = VStr s
      /\ (startswith r "fake." = false -> startswith r "random." = false ->
          startswith r "regex:" = false -> s = r)
      /\ (forall a b, randint_bounds r = Some (a, b) -> a <= b ->
                      exists n, a <= n <= b /\ s = str_of_int n).
Proof.
  intros R r w v w' Hfaker Hnull E.
  destruct (startswith r "random.") eqn:Hrandom.
  - (* evaluated expression, through [str] *)
    pose proof E as E'.
    rewrite (random_rule_is_evaluated _ _ Hrandom) in E'.
    unfold try_except, bind, ret in E'.
    assert (Hs : exists s, v = VStr s).
    { destruct (py_eval r w) as [[v0 | e0] w0].
      - inversion E'. eauto.
      - destruct (is_Exception e0); inversion E'. unfold MASKING_ERROR. eauto. }
    destruct Hs as (s & ->). exists s. split; [reflexivity |].
    split; [discriminate |].
    intros a b Hs Hab.
    destruct (apply_randint r a b w Hs Hab) as (n & w1 & Hn & En).
    rewrite En in E. inversion E; subst. eauto.
  - assert (Hnb : forall a b, randint_bounds r = Some (a, b) -> False).
    { intros a b Hs. rewrite (randint_bounds_prefix _ _ _ Hs) in Hrandom.
      discriminate. }
    unfold _apply_masking_rule, try_except, masking_rule_body in E.
    rewrite Hrandom in E.
    destruct (startswith r "fake.") eqn:Hfake.
    { unfold bind, ret in E.
      destruct (fake_call (slice_from 5 r) w) as [[v0 | e0] w0].
      - inversion E; subst. eexists. split; [reflexivity |].
        split; [discriminate | intros a b Hs; destruct (Hnb _ _ Hs)].
      - destruct (is_Exception e0); inversion E; subst.
        eexists. split; [reflexivity |].
        split; [discriminate | intros a b Hs; destruct (Hnb _ _ Hs)]. }
    destruct (String.eqb_spec r "null") as [-> | _]; [congruence |].
    destruct (startswith r "regex:") eqn:Hregex.
    { assert (Hs : exists s, v = VStr s).
      { unfold _generate_masked_value_from_regex in E.
        repeat match type of E with
               | context [if String.eqb ?x ?y then _ else _] =>
                   destruct (String.eqb x y)
               end;
          try (destruct (fake_call _ w) as [[v0 | e0] w0] eqn:Ef;
               [ inversion E; subst;
                 eapply Hfaker; [| exact Ef]; simpl; auto
               | destruct (is_Exception e0); inversion E;
                 unfold MASKING_ERROR; eauto ]).
        inversion E. unfold MASKED_VALUE. eauto. }
      destruct Hs as (s & ->). exists s. split; [reflexivity |].
      split; [discriminate | intros a b Hs; destruct (Hnb _ _ Hs)]. }
    unfold ret in E. inversion E; subst. exists r.
    split; [reflexivity |].
    split; [reflexivity | intros a b Hs; destruct (Hnb _ _ Hs)].
Qed.

(** ** The demonstration runtime *)

Lemma demo_never_escapes : never_escapes demo_runtime.
Proof.
  intros s w e w' [E | E]; cbn [fake_call py_eval_ext demo_runtime] in E.
  - unfold demo_fake in E.
    repeat match type of E with
           | context [if ?c then _ else _] => destruct c
           end; inversion E; reflexivity.
  - inversion E. reflexivity.
Qed.

Lemma demo_faker_strings : faker_returns_strings demo_runtime.
Proof.
  intros name w v w' Hin E. cbn [fake_call demo_runtime] in E.
  destruct Hin as [<- | [<- | [<- | []]]]; inversion E; eauto.
Qed.

Lemma demo_config_returns (config : dict) :
  @config_returns demo_runtime config.
Proof.
  intros k rule _. apply never_escapes_returns. exact demo_never_escapes.
Qed.

(** ** Dicts *)

Lemma dict_set_fresh (d : dict) (k : string) (v : pyval) :
  ~ In k (keys d) -> dict_set d k v = (d ++ [(k, v)])%list.
Proof.
  induction d as [| [k' v'] rest IH]; intros Hk; simpl.
  - reflexivity.
  - destruct (String.eqb_spec k' k) as [-> | Hne].
    + exfalso. apply Hk. left. reflexivity.
    + rewrite IH; [reflexivity |]. intros Hin. apply Hk. right. exact Hin.
Qed.

Lemma keys_app (d1 d2 : dict) :
  keys (d1 ++ d2)%list = (keys d1 ++ keys d2)%list.
Proof. unfold keys. apply map_app. Qed.

(** ** Mapping mode *)

Section MappingFacts.
Context `{R : Runtime}.

(** With distinct keys, every assignment of the loop appends: the result
    is the list of the fields, each masked on its own, in input order. *)
Lemma anonymize_items_fields (config : dict) (items : dict) :
  forall (acc : dict) (w : World),
    NoDup (keys acc ++ keys items) ->
    anonymize_items items config acc w
    = (out <- for_each (mask_field config) items ;; ret (acc ++ out)%list) w.
Proof.
  induction items as [| [key value] rest IH]; intros acc w Hnd.
  - simpl. unfold bind, ret. rewrite app_nil_r. reflexivity.
  - assert (Hfresh : ~ In key (keys acc)).
    { intros Hin. apply NoDup_remove_2 in Hnd. apply Hnd.
      apply in_or_app. left. exact Hin. }
    assert (Hnext : forall v,
               NoDup (keys (acc ++ [(key, v)])%list ++ keys rest)).
    { intros v. rewrite keys_app. simpl. rewrite <- app_assoc. exact Hnd. }
    cbn [anonymize_items for_each mask_field].
    destruct (truthy (get_or_none config key)).
    + unfold bind at 1 2 3 4.
      destruct (_apply_masking_rule (get_or_none config key) w)
        as [[v | e] w1]; [| reflexivity].
      rewrite (dict_set_fresh _ _ _ Hfresh), (IH _ _ (Hnext v)).
      unfold bind, ret.
      destruct (for_each (mask_field config) rest w1) as [[out | e] w2];
        [| reflexivity].
      rewrite <- app_assoc. reflexivity.
    + rewrite (dict_set_fresh _ _ _ Hfresh), (IH _ _ (Hnext value)).
      unfold bind, ret.
      destruct (for_each (mask_field config) rest w) as [[out | e] w2];
        [| reflexivity].
      rewrite <- app_assoc. reflexivity.
Qed.

Lemma anonymize_data_fields (config data : dict) (w : World) :
  NoDup (keys data) ->
  _anonymize_data data config w = for_each (mask_field config) data w.
Proof.
  intros Hnd. unfold _anonymize_data.
  rewrite anonymize_items_fields by exact Hnd.
  unfold bind, ret.
  destruct (for_each (mask_field config) data w) as [[out | e] w1];
    reflexivity.
Qed.

Lemma mask_field_inv (config : dict) item item' w0 w1 :
  mask_field config item w0 = (Ret item', w1) ->
  field_masked config item item'.
Proof.
  destruct item as [key value]. unfold mask_field, field_masked. simpl.
  destruct (truthy (get_or_none config key)).
  - intros E. apply bind_ret_inv in E. destruct E as (v & w2 & Ev & E).
    inversion E; subst. simpl. eauto.
  - intros E. inversion E; subst. auto.
Qed.

(** Mapping mode, field by field. *)
Lemma anonymize_data_inv (config data out : dict) (w w' : World) :
  NoDup (keys data) ->
  _anonymize_data data config w = (Ret out, w') ->
  Forall2 (field_masked config) data out.
Proof.
  intros Hnd E. rewrite anonymize_data_fields in E by exact Hnd.
  apply for_each_ret_inv in E.
  eapply Forall2_impl; [| exact E].
  intros item item' (w0 & w1 & Ei). exact (mask_field_inv _ _ _ _ _ Ei).
Qed.

Lemma anonymize_items_returns (config items : dict) :
  config_returns config ->
  forall acc, returns (anonymize_items items config acc).
Proof.
  intros Hc. induction items as [| [key value] rest IH]; intros acc.
  - apply returns_ret.
  - cbn [anonymize_items].
    destruct (truthy (get_or_none config key)) eqn:Ht; [| apply IH].
    apply returns_bind; [| intros v; apply IH].
    unfold get_or_none in *.
    destruct (dict_get config key) as [rule |] eqn:Eg; [| discriminate].
    exact (Hc _ _ Eg).
Qed.

Lemma anonymize_data_returns (config data : dict) :
  config_returns config -> returns (_anonymize_data data config).
Proof. intros Hc. apply anonymize_items_returns. exact Hc. Qed.

Lemma field_masked_keys (config data out : dict) :
  Forall2 (field_masked config) data out -> keys out = keys data.
Proof.
  induction 1 as [| item item' data out (Hk & _) _ IH]; simpl.
  - reflexivity.
  - rewrite Hk, IH. reflexivity.
Qed.

Lemma field_masked_get (config data out : dict) (k : string) (v : pyval) :
  Forall2 (field_masked config) data out ->
  dict_get data k = Some v ->
  exists v', dict_get out k = Some v' /\ field_masked config (k, v) (k, v').
Proof.
  induction 1 as [| [k1 v1] [k2 v2] data out Hf _ IH]; simpl;
    [discriminate |].
  pose proof Hf as (Hk & Hv). simpl in Hk, Hv. subst k2.
  destruct (String.eqb_spec k1 k) as [-> | Hne].
  - intros E. inversion E; subst. exists v2. split; [reflexivity |].
    split; [reflexivity | exact Hv].
  - exact IH.
Qed.

End MappingFacts.

(** ** Claims about mapping mode *)

Section FailureFacts.
Context `{R : Runtime}.

(** The three ways a rule fails that the specification names. *)

(** [random.randint(min, max)] with [min > max]: [ValueError]. *)
Lemma rule_fails_empty_range rule a b :
  randint_bounds rule = Some (a, b) -> b < a -> rule_fails (VStr rule).
Proof.
  intros Hs Hab w. exists ValueError, w. split; [| reflexivity].
  unfold masking_rule_body.
  rewrite (startswith_random_not_fake _ (randint_bounds_prefix _ _ _ Hs)).
  rewrite (randint_bounds_prefix _ _ _ Hs), (py_eval_randint _ _ _ Hs).
  unfold bind. rewrite (randint_empty _ _ _ Hab). reflexivity.
Qed.

(** A synthetic field the Faker object does not provide. *)
Lemma rule_fails_unsupported_field name :
  (forall w, exists e w',
      fake_call name w = (Raise e, w') /\ is_Exception e = true) ->
  rule_fails (VStr ("fake." ++ name)).
Proof.
  intros Hf w. destruct (Hf w) as (e & w' & Ef & He).
  exists e, w'. split; [| exact He].
  unfold masking_rule_body.
  change (startswith ("fake." ++ name) "fake.") with true.
  change (slice_from 5 ("fake." ++ name)) with name.
  cbv iota. unfold bind. rewrite Ef. reflexivity.
Qed.

(** A [random.] expression whose evaluation raises. *)
Lemma rule_fails_invalid_expression rule :
  startswith rule "random." = true ->
  (forall w, exists e w',
      py_eval rule w = (Raise e, w') /\ is_Exception e = true) ->
  rule_fails (VStr rule).
Proof.
  intros Hp Hf w. destruct (Hf w) as (e & w' & Ee & He).
  exists e, w'. split; [| exact He].
  unfold masking_rule_body.
  rewrite (startswith_random_not_fake _ Hp), Hp.
  unfold bind. rewrite Ee. reflexivity.
Qed.

Lemma rule_fails_marker rule :
  rule_fails rule ->
  forall w v w', _apply_masking_rule rule w = (Ret v, w') ->
                 v = MASKING_ERROR.
Proof.
  intros Hf w v w' E. destruct (Hf w) as (e & w1 & Eb & He).
  rewrite (apply_masking_rule_caught _ _ _ _ Eb He) in E.
  inversion E. reflexivity.
Qed.

End FailureFacts.

Section RuleKindFacts.
Context `{R : Runtime}.







End RuleKindFacts.



(** C8.  In mapping mode a key whose rule string is empty keeps its value:
    the truth test skips the rule, although applying it would substitute
    the empty string, as for any literal. *)
Theorem empty_rule_keeps_value :
  forall (R : Runtime) (data config : dict) (w : World)
         (k : string) (v : pyval),
    NoDup (keys data) ->
    config_returns config ->
    dict_get config k = Some (VStr "") ->
    dict_get data k = Some v ->
    (exists out w',
        _anonymize_data data config w = (Ret out, w')
        /\ dict_get out k = Some v)
    /\ _apply_masking_rule (VStr "") w = (Ret (VStr ""), w)
    /\ RuleParser_parse "" = Literal "".
Proof.
  intros R data config w k v Hnd Hc Hrule Hk. split.
  - destruct (anonymize_data_returns config data Hc w) as (out & w' & E).
    pose proof (anonymize_data_inv _ _ _ _ _ Hnd E) as Hall.
    exists out, w'. split; [exact E |].
    destruct (field_masked_get _ _ _ _ _ Hall Hk) as (u & Hu & _ & Hm).
    simpl in Hm. unfold get_or_none in Hm. rewrite Hrule in Hm. simpl in Hm.
    rewrite Hu, Hm. reflexivity.
  - split; reflexivity.
Qed.

(** ** Tree mode *)

Lemma Element_forall_ind (P : Element -> Prop) :
  (forall t a x tl cs, Forall P cs -> P (Elem t a x tl cs)) ->
  forall e, P e.
Proof.
  intros Hstep. fix IH 1. intros [t a x tl cs]. apply Hstep.
  induction cs as [| c rest IHrest]; constructor.
  - apply IH.
  - exact IHrest.
Qed.

Section TreeFacts.
Context `{R : Runtime}.
Variable config : dict.

(** The body of the loop, as the program writes it: assign the text of the
    child when its tag is in the table, then call [_anonymize_xml_element]
    on that child. *)
Lemma anonymize_child_unfold c w :
  anonymize_child config c w
  = (x' <- match dict_get config (tag c) with
           | Some rule => _apply_masking_rule rule
           | None => ret (text c)
           end ;;
     _anonymize_xml_element (set_text c x') config) w.
Proof. destruct c as [t a x tl gcs]. reflexivity. Qed.

Lemma anonymize_child_inv t a x tl gcs e' w w' :
  anonymize_child config (Elem t a x tl gcs) w = (Ret e', w') ->
  exists x' gcs',
    e' = Elem t a x' tl gcs'
    /\ text_masked config t x x'
    /\ Forall2 (child_masked config) gcs gcs'.
Proof.
  cbn [anonymize_child]. intros E.
  apply bind_ret_inv in E. destruct E as (x' & w1 & Ex & E).
  apply bind_ret_inv in E. destruct E as (gcs' & w2 & Eg & E).
  inversion E; subst. exists x', gcs'. split; [reflexivity |]. split.
  - unfold text_masked. destruct (dict_get config t) as [rule |].
    + eauto.
    + inversion Ex. reflexivity.
  - exact (for_each_ret_inv _ _ _ _ _ Eg).
Qed.

Lemma anonymize_xml_element_inv root root' w w' :
  _anonymize_xml_element root config w = (Ret root', w') ->
  tag root' = tag root /\ attrib root' = attrib root
  /\ text root' = text root /\ tail root' = tail root
  /\ Forall2 (child_masked config) (children root) (children root').
Proof.
  destruct root as [t a x tl cs]. unfold _anonymize_xml_element.
  intros E. apply bind_ret_inv in E. destruct E as (cs' & w1 & Ec & E).
  inversion E; subst. simpl. repeat split; try reflexivity.
  exact (for_each_ret_inv _ _ _ _ _ Ec).
Qed.

Lemma child_masked_inv c c' :
  child_masked config c c' ->
  tag c' = tag c /\ attrib c' = attrib c /\ tail c' = tail c
  /\ text_masked config (tag c) (text c) (text c')
  /\ Forall2 (child_masked config) (children c) (children c').
Proof.
  destruct c as [t a x tl gcs]. intros (w0 & w1 & E).
  apply anonymize_child_inv in E.
  destruct E as (x' & gcs' & -> & Hx & Hg). simpl. auto.
Qed.

Lemma Forall2_nth_error_l {A B : Type} (P : A -> B -> Prop) xs ys i x :
  Forall2 P xs ys -> nth_error xs i = Some x ->
  exists y, nth_error ys i = Some y /\ P x y.
Proof.
  intros H. revert i. induction H as [| x0 y0 xs ys Hxy _ IH]; intros i.
  - destruct i; discriminate.
  - destruct i as [| i]; simpl.
    + intros E. inversion E; subst. eauto.
    + apply IH.
Qed.

(** Every element below a masked child has been passed over by the loop,
    at whatever depth, whether or not an ancestor was masked. *)
Lemma child_masked_descend path :
  forall c c' d,
    child_masked config c c' ->
    descend path c = Some d ->
    exists d', descend path c' = Some d' /\ child_masked config d d'.
Proof.
  induction path as [| i rest IH]; intros c c' d Hc; simpl.
  - intros E. inversion E; subst. eauto.
  - destruct (nth_error (children c) i) as [ci |] eqn:Ei; [| discriminate].
    intros Hd.
    destruct (child_masked_inv _ _ Hc) as (_ & _ & _ & _ & Hcs).
    destruct (Forall2_nth_error_l _ _ _ _ _ Hcs Ei) as (ci' & Ei' & Hci).
    rewrite Ei'. exact (IH _ _ _ Hci Hd).
Qed.

Lemma child_masked_shape :
  forall c c', child_masked config c c' -> shape c' = shape c.
Proof.
  intros c. induction c as [t a x tl gcs IH] using Element_forall_ind.
  intros c' Hc. destruct Hc as (w0 & w1 & E).
  apply anonymize_child_inv in E.
  destruct E as (x' & gcs' & -> & _ & Hg). simpl. f_equal.
  induction Hg as [| g g' gcs gcs' Hgg' _ IHg]; simpl.
  - reflexivity.
  - inversion IH as [| ? ? Hhead Htail]; subst.
    rewrite (Hhead _ Hgg'), (IHg Htail). reflexivity.
Qed.

Lemma anonymize_child_returns :
  config_returns config -> forall c, returns (anonymize_child config c).
Proof.
  intros Hc c. induction c as [t a x tl gcs IH] using Element_forall_ind.
  cbn [anonymize_child]. apply returns_bind.
  - destruct (dict_get config t) as [rule |] eqn:Eg.
    + exact (Hc _ _ Eg).
    + apply returns_ret.
  - intros x'. apply returns_bind; [| intros gcs'; apply returns_ret].
    apply returns_for_each. intros g Hg.
    rewrite Forall_forall in IH. exact (IH _ Hg).
Qed.

Lemma anonymize_xml_element_returns root :
  config_returns config -> returns (_anonymize_xml_element root config).
Proof.
  intros Hc. destruct root as [t a x tl cs]. unfold _anonymize_xml_element.
  apply returns_bind; [| intros cs'; apply returns_ret].
  apply returns_for_each. intros c _. apply anonymize_child_returns.
  exact Hc.
Qed.

End TreeFacts.

(** ** Traversal order *)

Section TraversalOrder.
Context `{R : Runtime}.
Variable config : dict.

Lemma rules_of_app es1 es2 :
  rules_of config (es1 ++ es2)
  = (rules_of config es1 ++ rules_of config es2)%list.
Proof.
  induction es1 as [| e rest IH]; simpl; [reflexivity |].
  destruct (dict_get config (tag e)); simpl; rewrite IH; reflexivity.
Qed.

Lemma texts_of_app es1 es2 :
  texts_of config (es1 ++ es2)
  = (texts_of config es1 ++ texts_of config es2)%list.
Proof.
  induction es1 as [| e rest IH]; simpl; [reflexivity |].
  destruct (dict_get config (tag e)); simpl; rewrite IH; reflexivity.
Qed.

Lemma children_in_preorder cs :
  Forall (fun c => forall w,
              in_preorder config preorder (anonymize_child config c w) w
                          (preorder c)) cs ->
  forall w,
    in_preorder config (flat_map preorder)
                (for_each (anonymize_child config) cs w) w
                (flat_map preorder cs).
Proof.
  induction 1 as [| c rest Hc _ IH]; intros w.
  - reflexivity.
  - cbn [for_each flat_map]. unfold in_preorder.
    rewrite rules_of_app, for_each_app.
    specialize (Hc w). unfold in_preorder in Hc.
    unfold bind, ret.
    destruct (anonymize_child config c w) as [[c' | e] w1];
      rewrite Hc; [| reflexivity].
    specialize (IH w1). unfold in_preorder in IH.
    destruct (for_each (anonymize_child config) rest w1)
      as [[rest' | e] w2]; rewrite IH; [| reflexivity].
    cbn [flat_map]. rewrite texts_of_app. reflexivity.
Qed.

Lemma child_in_preorder c :
  forall w,
    in_preorder config preorder (anonymize_child config c w) w (preorder c).
Proof.
  induction c as [t a x tl gcs IH] using Element_forall_ind. intros w.
  pose proof (children_in_preorder gcs IH) as Hg.
  unfold in_preorder. cbn [anonymize_child preorder rules_of tag].
  destruct (dict_get config t) as [rule |] eqn:Et.
  - cbn [for_each]. unfold bind, ret.
    destruct (_apply_masking_rule rule w) as [[x' | e] w1]; [| reflexivity].
    specialize (Hg w1). unfold in_preorder in Hg.
    destruct (for_each (anonymize_child config) gcs w1) as [[gcs' | e] w2];
      rewrite Hg; [| reflexivity].
    cbn [preorder texts_of tag text]. rewrite Et. reflexivity.
  - unfold bind, ret.
    specialize (Hg w). unfold in_preorder in Hg.
    destruct (for_each (anonymize_child config) gcs w) as [[gcs' | e] w2];
      rewrite Hg; [| reflexivity].
    cbn [preorder texts_of tag text]. rewrite Et. reflexivity.
Qed.

Lemma xml_element_in_preorder root w :
  in_preorder config descendants (_anonymize_xml_element root config w) w
              (descendants root).
Proof.
  destruct root as [t a x tl cs]. unfold _anonymize_xml_element, descendants.
  cbn [children].
  pose proof (children_in_preorder cs) as Hc.
  specialize (Hc (proj2 (Forall_forall _ _)
                        (fun c _ => child_in_preorder c)) w).
  unfold in_preorder in *. unfold bind.
  destruct (for_each (anonymize_child config) cs w) as [[cs' | e] w1];
    exact Hc.
Qed.

End TraversalOrder.

(** ** Sequence mode *)

Section SequenceFacts.
Context `{R : Runtime}.

Lemma for_each_nth {A B : Type} (f : A -> M B) (xs : list A) :
  forall w ys w',
    for_each f xs w = (Ret ys, w') ->
    length ys = length xs
    /\ forall i x,
         nth_error xs i = Some x ->
         exists wi wi' y,
           for_each f (firstn i xs) w = (Ret (firstn i ys), wi)
           /\ f x wi = (Ret y, wi')
           /\ nth_error ys i = Some y.
Proof.
  induction xs as [| x0 rest IH]; intros w ys w' E.
  - inversion E. split; [reflexivity |]. intros [| i] x Hx; discriminate.
  - cbn [for_each] in E.
    apply bind_ret_inv in E. destruct E as (y0 & w1 & E0 & E).
    apply bind_ret_inv in E. destruct E as (ys' & w2 & Er & E).
    inversion E; subst. destruct (IH _ _ _ Er) as (Hlen & Hnth).
    split; [simpl; congruence |].
    intros [| i] x Hx; simpl in Hx.
    + inversion Hx; subst. exists w, w1, y0. auto.
    + destruct (Hnth _ _ Hx) as (wi & wi' & y & Epre & Ey & Hy).
      exists wi, wi', y. split; [| auto].
      cbn [firstn for_each]. unfold bind, ret. rewrite E0, Epre.
      reflexivity.
Qed.

Lemma anonymize_rows_for_each (config : dict) (rows : list dict) :
  forall (acc : list dict) (w : World),
    anonymize_rows rows config acc w
    = (out <- for_each (fun row => _anonymize_data row config) rows ;;
       ret (acc ++ out)%list) w.
Proof.
  induction rows as [| row rest IH]; intros acc w.
  - simpl. unfold bind, ret. rewrite app_nil_r. reflexivity.
  - cbn [anonymize_rows for_each]. unfold bind at 1 2 3.
    destruct (_anonymize_data row config w) as [[r | e] w1];
      [| reflexivity].
    rewrite IH. unfold bind, ret.
    destruct (for_each (fun row0 => _anonymize_data row0 config) rest w1)
      as [[out | e] w2]; [| reflexivity].
    rewrite <- app_assoc. reflexivity.
Qed.

Lemma anonymize_csv_for_each self_config data config w :
  anonymize_csv self_config data config w
  = for_each (fun row => _anonymize_data row (config_or config self_config))
             data w.
Proof.
  unfold anonymize_csv. rewrite anonymize_rows_for_each.
  unfold bind, ret.
  destruct (for_each _ data w) as [[out | e] w1]; reflexivity.
Qed.

(** The keys of a dict after an assignment depend on its keys only. *)
Lemma keys_dict_set (d1 d2 : dict) (k : string) (v1 v2 : pyval) :
  keys d1 = keys d2 -> keys (dict_set d1 k v1) = keys (dict_set d2 k v2).
Proof.
  revert d2. induction d1 as [| [k1 u1] rest1 IH]; intros [| [k2 u2] rest2];
    simpl; try discriminate; [reflexivity |].
  intros E. inversion E; subst.
  destruct (String.eqb k2 k); simpl; [congruence |].
  f_equal. apply IH. assumption.
Qed.

(** What the masking of a record does to the world depends on the keys of
    the record, not on the values stored under them. *)
Lemma anonymize_items_alike (config : dict) (items1 : dict) :
  forall (items2 acc1 acc2 : dict) (w : World),
    keys items1 = keys items2 -> keys acc1 = keys acc2 ->
    ends_alike (fun o1 o2 => keys o1 = keys o2)
               (anonymize_items items1 config acc1 w)
               (anonymize_items items2 config acc2 w).
Proof.
  induction items1 as [| [k1 v1] rest1 IH];
    intros [| [k2 v2] rest2] acc1 acc2 w Hk Ha; simpl in Hk;
    try discriminate.
  - simpl. auto.
  - inversion Hk; subst. cbn [anonymize_items].
    destruct (truthy (get_or_none config k2)).
    + unfold bind.
      destruct (_apply_masking_rule (get_or_none config k2) w)
        as [[v | e] w1]; [| simpl; auto].
      apply IH; [assumption | apply keys_dict_set; assumption].
    + apply IH; [assumption | apply keys_dict_set; assumption].
Qed.

Lemma anonymize_data_alike (config row1 row2 : dict) (w : World) :
  keys row1 = keys row2 ->
  ends_alike (fun o1 o2 => keys o1 = keys o2)
             (_anonymize_data row1 config w)
             (_anonymize_data row2 config w).
Proof.
  intros Hk. apply anonymize_items_alike; [exact Hk | reflexivity].
Qed.

Lemma for_each_app_ret_inv {A B : Type} (f : A -> M B) xs1 xs2 w ys w' :
  for_each f (xs1 ++ xs2) w = (Ret ys, w') ->
  exists ys1 w1 ys2,
    for_each f xs1 w = (Ret ys1, w1)
    /\ for_each f xs2 w1 = (Ret ys2, w')
    /\ ys = (ys1 ++ ys2)%list.
Proof.
  rewrite for_each_app. intros E.
  apply bind_ret_inv in E. destruct E as (ys1 & w1 & E1 & E).
  apply bind_ret_inv in E. destruct E as (ys2 & w2 & E2 & E).
  inversion E; subst. eauto 6.
Qed.

(** Replacing one row by a row with the same columns changes the output
    of that row only. *)
Lemma for_each_row_replaced (config : dict) pre post row1 row2 w outs w' :
  keys row1 = keys row2 ->
  for_each (fun row => _anonymize_data row config)
           (pre ++ row1 :: post) w = (Ret outs, w') ->
  exists opre o1 o2 opost,
    outs = (opre ++ o1 :: opost)%list
    /\ length opre = length pre
    /\ for_each (fun row => _anonymize_data row config)
                (pre ++ row2 :: post) w
       = (Ret (opre ++ o2 :: opost)%list, w').
Proof.
  intros Hk E.
  apply for_each_app_ret_inv in E.
  destruct E as (opre & w1 & otail & Epre & Etail & ->).
  cbn [for_each] in Etail.
  apply bind_ret_inv in Etail. destruct Etail as (o1 & w2 & E1 & Etail).
  apply bind_ret_inv in Etail. destruct Etail as (opost & w3 & Epost & E).
  inversion E; subst.
  pose proof (anonymize_data_alike config row1 row2 w1 Hk) as Hsim.
  rewrite E1 in Hsim. unfold ends_alike in Hsim.
  destruct (_anonymize_data row2 config w1) as [[o2 | e] w2'] eqn:E2;
    [| destruct Hsim].
  destruct Hsim as (<- & _).
  exists opre, o1, o2, opost. split; [reflexivity |]. split.
  - exact (proj1 (for_each_nth _ _ _ _ _ Epre)).
  - rewrite for_each_app. unfold bind, ret. rewrite Epre.
    cbn [for_each]. unfold bind, ret. rewrite E2, Epost. reflexivity.
Qed.

End SequenceFacts.

(** ** Claims about the three modes *)

Section FrameFacts.
Context `{R : Runtime}.
Variable config : dict.

(** A field whose key the table does not have keeps its value. *)
Lemma absent_field_kept (data out : dict) (k : string) (v : pyval) :
  Forall2 (field_masked config) data out ->
  dict_get config k = None ->
  dict_get data k = Some v ->
  dict_get out k = Some v.
Proof.
  intros Hall Habs Hk.
  destruct (field_masked_get _ _ _ _ _ Hall Hk) as (u & Hu & _ & Hm).
  simpl in Hm. unfold get_or_none in Hm. rewrite Habs in Hm. simpl in Hm.
  rewrite Hu, Hm. reflexivity.
Qed.

(** An element whose tag the table does not have keeps its text. *)
Lemma absent_tag_kept (c c' : Element) :
  child_masked config c c' ->
  dict_get config (tag c) = None ->
  text c' = text c.
Proof.
  intros Hc Habs.
  destruct (child_masked_inv _ _ _ Hc) as (_ & _ & _ & Hx & _).
  unfold text_masked in Hx. rewrite Habs in Hx. exact Hx.
Qed.

Lemma children_masked_shape (cs cs' : list Element) :
  Forall2 (child_masked config) cs cs' -> map shape cs' = map shape cs.
Proof.
  induction 1 as [| c c' cs cs' Hc _ IH]; simpl; [reflexivity |].
  rewrite (child_masked_shape _ _ _ Hc), IH. reflexivity.
Qed.

Lemma xml_element_shape root root' w w' :
  _anonymize_xml_element root config w = (Ret root', w') ->
  shape root' = shape root.
Proof.
  intros E. apply anonymize_xml_element_inv in E.
  destruct root as [t a x tl cs], root' as [t' a' x' tl' cs'].
  simpl in E. destruct E as (-> & -> & _ & -> & Hcs). simpl.
  rewrite (children_masked_shape _ _ Hcs). reflexivity.
Qed.

(** Below the root, every element has been passed over by the loop. *)
Lemma xml_element_descend root root' w w' i path d :
  _anonymize_xml_element root config w = (Ret root', w') ->
  descend (i :: path) root = Some d ->
  exists d', descend (i :: path) root' = Some d'
             /\ child_masked config d d'.
Proof.
  intros E Hd. apply anonymize_xml_element_inv in E.
  destruct E as (_ & _ & _ & _ & Hcs). simpl in Hd |- *.
  destruct (nth_error (children root) i) as [c |] eqn:Ei; [| discriminate].
  destruct (Forall2_nth_error_l _ _ _ _ _ Hcs Ei) as (c' & Ei' & Hc).
  rewrite Ei'. exact (child_masked_descend _ _ _ _ _ Hc Hd).
Qed.

End FrameFacts.

(** C2.  Each of the three modes returns output of the same shape as its
    input: mapping mode the same keys in the same order, sequence mode that
    for every row, tree mode the same tags, attributes, nesting and child
    order; and every field or element whose name the rule table does not
    have keeps the very value it had. *)
Theorem masking_preserves_structure :
  forall (R : Runtime) (self_config : dict) (config : option dict)
         (data : dict) (rows : list dict) (root : Element) (w : World),
    config_returns (config_or config self_config) ->
    NoDup (keys data) ->
    Forall (fun row => NoDup (keys row)) rows ->
    (exists out w',
        anonymize_json self_config data config w = (Ret out, w')
        /\ keys out = keys data
        /\ forall k v,
             dict_get (config_or config self_config) k = None ->
             dict_get data k = Some v -> dict_get out k = Some v)
    /\ (exists outs w',
           anonymize_csv self_config rows config w = (Ret outs, w')
           /\ Forall2
                (fun row out =>
                   keys out = keys row
                   /\ forall k v,
                        dict_get (config_or config self_config) k = None ->
                        dict_get row k = Some v -> dict_get out k = Some v)
                rows outs)
    /\ (exists root' w',
           _anonymize_xml_element root (config_or config self_config) w
           = (Ret root', w')
           /\ shape root' = shape root
           /\ forall path d,
                descend path root = Some d ->
                dict_get (config_or config self_config) (tag d) = None ->
                exists d', descend path root' = Some d'
                           /\ text d' = text d).
Proof.
  intros R self_config config data rows root w Hc Hnd Hrows.
  set (T := config_or config self_config) in *.
  split; [| split].
  - unfold anonymize_json. fold T.
    destruct (anonymize_data_returns T data Hc w) as (out & w' & E).
    pose proof (anonymize_data_inv _ _ _ _ _ Hnd E) as Hall.
    exists out, w'. split; [exact E |].
    split; [exact (field_masked_keys _ _ _ Hall) |].
    intros k v. apply absent_field_kept. exact Hall.
  - assert (Hret : returns (anonymize_csv self_config rows config)).
    { intros w0. rewrite anonymize_csv_for_each.
      apply returns_for_each. intros row _.
      apply anonymize_data_returns. exact Hc. }
    destruct (Hret w) as (outs & w' & E).
    exists outs, w'. split; [exact E |].
    rewrite anonymize_csv_for_each in E. fold T in E.
    apply for_each_ret_inv in E. clear Hret.
    induction E as [| row out rows outs (w0 & w1 & Erow) _ IH];
      constructor.
    + inversion Hrows as [| ? ? Hrow _]; subst.
      pose proof (anonymize_data_inv _ _ _ _ _ Hrow Erow) as Hall.
      split; [exact (field_masked_keys _ _ _ Hall) |].
      intros k v. apply absent_field_kept. exact Hall.
    + apply IH. inversion Hrows; assumption.
  - destruct (anonymize_xml_element_returns T root Hc w) as (root' & w' & E).
    exists root', w'. split; [exact E |].
    split; [exact (xml_element_shape _ _ _ _ _ E) |].
    intros [| i path] d Hd Habs.
    + simpl in Hd. inversion Hd; subst. exists root'.
      split; [reflexivity |].
      apply anonymize_xml_element_inv in E. tauto.
    + destruct (xml_element_descend _ _ _ _ _ _ _ _ E Hd) as (d' & Hd' & Hm).
      exists d'. split; [exact Hd' |].
      exact (absent_tag_kept _ _ _ Hm Habs).
Qed.

(** C5.  Tree mode is a depth-first walk in pre-order: every element below
    the root whose tag is in the rule table has its text replaced by what
    its rule returned, every other one keeps its text, and this holds below
    masked elements as well as below unmasked ones; the rules are applied
    in the order in which a pre-order walk meets the elements, a child's
    own text before its descendants, these before its next sibling. *)
Theorem tree_mode_is_depth_first :
  forall (R : Runtime) (config : dict) (root : Element) (w : World),
    config_returns config ->
    exists root' w',
      _anonymize_xml_element root config w = (Ret root', w')
      /\ shape root' = shape root
      /\ for_each _apply_masking_rule (rules_of config (descendants root)) w
         = (Ret (texts_of config (descendants root')), w')
      /\ forall i path d,
           descend (i :: path) root = Some d ->
           exists d', descend (i :: path) root' = Some d'
                      /\ tag d' = tag d
                      /\ text_masked config (tag d) (text d) (text d').
Proof.
  intros R config root w Hc.
  destruct (anonymize_xml_element_returns config root Hc w)
    as (root' & w' & E).
  exists root', w'. split; [exact E |].
  split; [exact (xml_element_shape _ _ _ _ _ E) |]. split.
  - pose proof (xml_element_in_preorder config root w) as Ho.
    rewrite E in Ho. exact Ho.
  - intros i path d Hd.
    destruct (xml_element_descend _ _ _ _ _ _ _ _ E Hd) as (d' & Hd' & Hm).
    exists d'. split; [exact Hd' |].
    destruct (child_masked_inv _ _ _ Hm) as (Ht & _ & _ & Hx & _). auto.
Qed.

(** C7 (as the program has it).  Sequence mode returns one output row per
    input row, in input order; the [i]-th output is mapping mode applied to
    the [i]-th input, in the world the earlier rows left behind, so that no
    row depends on a later one; and replacing one row by another row with
    the same columns leaves the output of every other row as it was.  The
    rows share the state of the generators and nothing else. *)
Theorem sequence_mode_maps_each_row :
  forall (R : Runtime) (self_config : dict) (config : option dict)
         (data : list dict) (w : World),
    config_returns (config_or config self_config) ->
    exists outs w',
      anonymize_csv self_config data config w = (Ret outs, w')
      /\ length outs = length data
      /\ (forall i row,
             nth_error data i = Some row ->
             exists wi wi' out,
               anonymize_csv self_config (firstn i data) config w
               = (Ret (firstn i outs), wi)
               /\ _anonymize_data row (config_or config self_config) wi
                  = (Ret out, wi')
               /\ nth_error outs i = Some out)
      /\ (forall pre post row1 row2,
             data = (pre ++ row1 :: post)%list ->
             keys row1 = keys row2 ->
             exists opre o1 o2 opost,
               outs = (opre ++ o1 :: opost)%list
               /\ length opre = length pre
               /\ anonymize_csv self_config (pre ++ row2 :: post) config w
                  = (Ret (opre ++ o2 :: opost)%list, w')).
Proof.
  intros R self_config config data w Hc.
  assert (Hret : returns (anonymize_csv self_config data config)).
  { intros w0. rewrite anonymize_csv_for_each.
    apply returns_for_each. intros row _.
    apply anonymize_data_returns. exact Hc. }
  destruct (Hret w) as (outs & w' & E).
  exists outs, w'. split; [exact E |].
  rewrite anonymize_csv_for_each in E.
  destruct (for_each_nth _ _ _ _ _ E) as (Hlen & Hnth).
  split; [exact Hlen |]. split.
  - intros i row Hi. destruct (Hnth _ _ Hi) as (wi & wi' & out & H1 & H2 & H3).
    exists wi, wi', out. rewrite anonymize_csv_for_each. auto.
  - intros pre post row1 row2 -> Hk.
    destruct (for_each_row_replaced _ _ _ _ _ _ _ _ Hk E)
      as (opre & o1 & o2 & opost & Ho & Hl & E2).
    exists opre, o1, o2, opost. rewrite anonymize_csv_for_each. auto.
Qed.

(** C7 (as stated) fails: the rows are not independent of each other, for
    the state of the generators goes from one row to the next.  The second
    row is the same in both batches; after a first row that sets off a rule
    it is masked with ["26"], after a first row that sets off none with
    ["25"], which is also what mapping mode gives for it on its own. *)
Lemma rows_share_generator_state_counterexample :
  @anonymize_csv demo_runtime []
    [ [("age", VInt 1)]; [("age", VInt 2)] ] (Some demo_config) 7
  = (Ret [ [("age", VStr "25")]; [("age", VStr "26")] ], 9)
  /\ @anonymize_csv demo_runtime []
       [ [("phone", VStr "555-123-4567")]; [("age", VInt 2)] ]
       (Some demo_config) 7
     = (Ret [ [("phone", VStr "555-123-4567")]; [("age", VStr "25")] ], 8)
  /\ @_anonymize_data demo_runtime [("age", VInt 2)] demo_config 7
     = (Ret [("age", VStr "25")], 8)
  /\ VStr "26" <> VStr "25".
Proof.
  split; [reflexivity |]. split; [reflexivity |].
  split; [reflexivity | discriminate].
Qed.

(** C9.  Tree mode never checks the root against the rule table: the root
    keeps its text (and tag, attributes and tail) whatever the table says
    about its tag, while every child of the root goes through the loop. *)
Theorem root_text_is_never_masked :
  forall (R : Runtime) (config : dict) (root : Element) (w : World),
    config_returns config ->
    exists root' w',
      _anonymize_xml_element root config w = (Ret root', w')
      /\ text root' = text root
      /\ tag root' = tag root
      /\ attrib root' = attrib root
      /\ tail root' = tail root
      /\ Forall2 (child_masked config) (children root) (children root').
Proof.
  intros R config root w Hc.
  destruct (anonymize_xml_element_returns config root Hc w)
    as (root' & w' & E).
  exists root', w'. split; [exact E |].
  apply anonymize_xml_element_inv in E. tauto.
Qed.

(** ** The claims at the example data *)

Ltac distinct_keys :=
  vm_compute; repeat constructor; simpl; intuition discriminate.

Lemma masked_value_is_string_witness :
  faker_returns_strings demo_runtime
  /\ "random.randint(18, 65)" <> "null"
  /\ @_apply_masking_rule demo_runtime (VStr "random.randint(18, 65)") 1000
     = (Ret (VStr "58"), 1001)
  /\ exists s,
       VStr "58" = VStr s
       /\ (startswith "random.randint(18, 65)" "fake." = false ->
           startswith "random.randint(18, 65)" "random." = false ->
           startswith "random.randint(18, 65)" "regex:" = false ->
           s = "random.randint(18, 65)")
       /\ (forall a b,
              randint_bounds "random.randint(18, 65)" = Some (a, b) ->
              a <= b -> exists n, a <= n <= b /\ s = str_of_int n).
Proof.
  split; [exact demo_faker_strings |]. split; [discriminate |].
  split; [reflexivity |].
  apply (masked_value_is_string demo_runtime "random.randint(18, 65)"
           1000 (VStr "58") 1001).
  - exact demo_faker_strings.
  - discriminate.
  - reflexivity.
Defined.


Lemma empty_rule_keeps_value_witness :
  NoDup (keys demo_record)
  /\ dict_get demo_config_bad "name" = Some (VStr "")
  /\ dict_get demo_record "name" = Some (VStr "John Doe")
  /\ (exists out w',
         @_anonymize_data demo_runtime demo_record demo_config_bad 7
         = (Ret out, w')
         /\ dict_get out "name" = Some (VStr "John Doe"))
  /\ @_apply_masking_rule demo_runtime (VStr "") 7 = (Ret (VStr ""), 7)
  /\ RuleParser_parse "" = Literal "".
Proof.
  split; [distinct_keys |]. split; [reflexivity |]. split; [reflexivity |].
  apply (empty_rule_keeps_value demo_runtime demo_record demo_config_bad
           7 "name" (VStr "John Doe")).
  - distinct_keys.
  - apply demo_config_returns.
  - reflexivity.
  - reflexivity.
Defined.

Lemma masking_preserves_structure_witness :
  NoDup (keys demo_record)
  /\ Forall (fun row => NoDup (keys row)) [demo_record; demo_record_2]
  /\ (exists out w',
         @anonymize_json demo_runtime [] demo_record (Some demo_config) 7
         = (Ret out, w')
         /\ keys out = keys demo_record
         /\ forall k v,
              dict_get (config_or (Some demo_config) []) k = None ->
              dict_get demo_record k = Some v -> dict_get out k = Some v)
  /\ (exists root' w',
         @_anonymize_xml_element demo_runtime demo_tree
           (config_or (Some demo_config) []) 7 = (Ret root', w')
         /\ shape root' = shape demo_tree).
Proof.
  assert (H1 : NoDup (keys demo_record)) by distinct_keys.
  assert (H2 : Forall (fun row => NoDup (keys row))
                      [demo_record; demo_record_2]).
  { repeat constructor; simpl; intuition discriminate. }
  split; [exact H1 |]. split; [exact H2 |].
  destruct (masking_preserves_structure demo_runtime [] (Some demo_config)
              demo_record [demo_record; demo_record_2] demo_tree 7
              (demo_config_returns _) H1 H2)
    as (Hmap & _ & (root' & w' & E & Hshape & _)).
  split; [exact Hmap |]. exists root', w'. split; [exact E | exact Hshape].
Defined.

Lemma tree_mode_is_depth_first_witness :
  exists root' w',
    @_anonymize_xml_element demo_runtime demo_tree demo_tree_config 7
    = (Ret root', w')
    /\ shape root' = shape demo_tree
    /\ for_each (@_apply_masking_rule demo_runtime)
         (rules_of demo_tree_config (descendants demo_tree)) 7
       = (Ret (texts_of demo_tree_config (descendants root')), w')
    /\ forall i path d,
         descend (i :: path) demo_tree = Some d ->
         exists d', descend (i :: path) root' = Some d'
                    /\ tag d' = tag d
                    /\ @text_masked demo_runtime demo_tree_config
                         (tag d) (text d) (text d').
Proof.
  apply (tree_mode_is_depth_first demo_runtime demo_tree_config demo_tree 7).
  apply demo_config_returns.
Defined.

Lemma sequence_mode_maps_each_row_witness :
  exists outs w',
    @anonymize_csv demo_runtime [] [demo_record; demo_record_2]
      (Some demo_config) 7 = (Ret outs, w')
    /\ length outs = 2%nat.
Proof.
  destruct (sequence_mode_maps_each_row demo_runtime [] (Some demo_config)
              [demo_record; demo_record_2] 7 (demo_config_returns _))
    as (outs & w' & E & Hlen & _).
  exists outs, w'. split; [exact E | exact Hlen].
Defined.

Lemma root_text_is_never_masked_witness :
  dict_get demo_tree_config (tag demo_tree) = Some (VStr "fake.name")
  /\ exists root' w',
       @_anonymize_xml_element demo_runtime demo_tree demo_tree_config 7
       = (Ret root', w')
       /\ text root' = text demo_tree.
Proof.
  split; [reflexivity |].
  destruct (root_text_is_never_masked demo_runtime demo_tree_config
              demo_tree 7 (demo_config_returns _))
    as (root' & w' & E & Htext & _).
  exists root', w'. split; [exact E | exact Htext].
Defined.

(** ** The program run on the example data *)

(** Mapping mode on the first record of the usage notes: the integer under
    ["age"] becomes a decimal string, ["phone"] has no rule and is kept. *)
Example demo_mapping_run :
  @_anonymize_data demo_runtime demo_record demo_config 7
  = (Ret [ ("name", VStr "Alex Doe"); ("email", VStr "alex@example.org");
           ("age", VStr "27"); ("phone", VStr "555-123-4567");
           ("ssn", VStr "000-00-0000") ],
     11).
Proof. reflexivity. Qed.

(** An empty rule keeps the value, an empty range gives the marker, and the
    field after it is still masked. *)
Example demo_mapping_bad_run :
  @_anonymize_data demo_runtime demo_record demo_config_bad 7
  = (Ret [ ("name", VStr "John Doe"); ("email", VStr "alex@example.org");
           ("age", VStr "[MASKING_ERROR]"); ("phone", VStr "555-123-4567");
           ("ssn", VStr "123-45-6789") ],
     8).
Proof. reflexivity. Qed.

(** Tree mode: the root keeps its text although its tag has a rule, each
    [person] is set to [None] and the [name] below it is masked all the
    same. *)
Example demo_tree_run :
  @_anonymize_xml_element demo_runtime demo_tree demo_tree_config 7
  = (Ret (Elem "root" [] (VStr "records") None
            [ Elem "person" [] VNone None
                [ Elem "name" [] (VStr "Alex Doe") None [];
                  Elem "email" [] (VStr "john.doe@example.com") None [] ];
              Elem "person" [] VNone None
                [ Elem "name" [] (VStr "Alex Doe") None [];
                  Elem "email" [] (VStr "jane.smith@example.com") None [] ] ]),
     9).
Proof. reflexivity. Qed.

(** A rule that is no string at all: the attribute error is caught. *)
Example demo_non_string_rule :
  @_apply_masking_rule demo_runtime (VInt 5) 7 = (Ret MASKING_ERROR, 7).
Proof. reflexivity. Qed.

(** * Further properties of the program *)

(** ** Records and rows that set off no rule *)

Section NoRuleFacts.
Context `{R : Runtime}.

Lemma for_each_identity {A : Type} (f : A -> M A) (xs : list A) :
  (forall x, In x xs -> forall w, f x w = (Ret x, w)) ->
  forall w, for_each f xs w = (Ret xs, w).
Proof.
  induction xs as [| x rest IH]; intros Hf w.
  - reflexivity.
  - cbn [for_each]. unfold bind, ret.
    rewrite (Hf x (or_introl eq_refl) w).
    rewrite IH; [reflexivity |].
    intros y Hy. apply Hf. right. exact Hy.
Qed.

Lemma mask_field_no_rule (config : dict) (key : string) (value : pyval) w :
  truthy (get_or_none config key) = false ->
  mask_field config (key, value) w = (Ret (key, value), w).
Proof. intros Ht. unfold mask_field. rewrite Ht. reflexivity. Qed.

Lemma anonymize_data_no_rule (config data : dict) (w : World) :
  NoDup (keys data) ->
  (forall k, In k (keys data) -> truthy (get_or_none config k) = false) ->
  _anonymize_data data config w = (Ret data, w).
Proof.
  intros Hnd Hno. rewrite anonymize_data_fields by exact Hnd.
  apply for_each_identity. intros [key value] Hin w0.
  apply mask_field_no_rule. apply Hno.
  unfold keys. apply (in_map fst) in Hin. exact Hin.
Qed.

End NoRuleFacts.

(** X1.  When no key of a record has a truthy rule in the table (an empty
    table, for one), mapping mode returns the record as it is and leaves the
    generators untouched; sequence mode does so for rows of that kind. *)
Theorem no_applicable_rule_is_identity :
  forall (R : Runtime) (self_config : dict) (config : option dict)
         (data : dict) (rows : list dict) (w : World),
    NoDup (keys data) ->
    (forall k, In k (keys data) ->
               truthy (get_or_none (config_or config self_config) k) = false) ->
    Forall (fun row =>
              NoDup (keys row)
              /\ forall k, In k (keys row) ->
                   truthy (get_or_none (config_or config self_config) k)
                   = false) rows ->
    anonymize_json self_config data config w = (Ret data, w)
    /\ anonymize_csv self_config rows config w = (Ret rows, w).
Proof.
  intros R self_config config data rows w Hnd Hno Hrows. split.
  - unfold anonymize_json. apply anonymize_data_no_rule; assumption.
  - rewrite anonymize_csv_for_each. apply for_each_identity.
    intros row Hin w0. rewrite Forall_forall in Hrows.
    destruct (Hrows _ Hin) as (Hnd' & Hno').
    apply anonymize_data_no_rule; assumption.
Qed.

Lemma no_applicable_rule_is_identity_witness :
  @anonymize_json demo_runtime [] demo_record (Some [("city", VStr "fake.city")]) 7
  = (Ret demo_record, 7)
  /\ @anonymize_csv demo_runtime [] [demo_record; demo_record_2]
       (Some [("city", VStr "fake.city")]) 7
     = (Ret [demo_record; demo_record_2], 7).
Proof.
  apply (no_applicable_rule_is_identity demo_runtime [] 
           (Some [("city", VStr "fake.city")]) demo_record
           [demo_record; demo_record_2] 7).
  - distinct_keys.
  - intros k Hk. simpl in Hk.
    destruct Hk as [<- | [<- | [<- | [<- | [<- | []]]]]]; reflexivity.
  - repeat constructor; try (simpl; intuition discriminate);
      intros k Hk; simpl in Hk;
      destruct Hk as [<- | [<- | [<- | [<- | [<- | []]]]]]; reflexivity.
Defined.

(** ** Splitting a batch *)

(** X2.  Sequence mode on a batch made of two parts is sequence mode on the
    first part followed by sequence mode on the second, started in the world
    the first left; the output is the two outputs one after the other, and
    an exception that escapes from the first part stops the second. *)
Theorem anonymize_csv_app :
  forall (R : Runtime) (self_config : dict) (config : option dict)
         (rows1 rows2 : list dict) (w : World),
    anonymize_csv self_config (rows1 ++ rows2) config w
    = (out1 <- anonymize_csv self_config rows1 config ;;
       out2 <- anonymize_csv self_config rows2 config ;;
       ret (out1 ++ out2)%list) w.
Proof.
  intros R self_config config rows1 rows2 w.
  rewrite anonymize_csv_for_each, for_each_app. unfold bind, ret.
  rewrite anonymize_csv_for_each.
  destruct (for_each _ rows1 w) as [[out1 | e] w1]; [| reflexivity].
  rewrite anonymize_csv_for_each. reflexivity.
Qed.

(** ** Static rules *)

Section StaticFacts.
Context `{R : Runtime}.

(** A static rule evaluates to [static_value] in every world and leaves the
    world as it is. *)
Lemma apply_static_rule (rule : pyval) (w : World) :
  static_rule rule = true ->
  _apply_masking_rule rule w = (Ret (static_value rule), w).
Proof.
  intros Hs. unfold _apply_masking_rule, try_except.
  destruct rule as [| b | z | m e | r | l | d]; try reflexivity.
  cbn [static_rule] in Hs. cbn [masking_rule_body static_value].
  destruct (startswith r "fake."); [discriminate |].
  destruct (startswith r "random."); [discriminate |].
  destruct (startswith r "regex:"); [discriminate |].
  destruct (String.eqb r "null"); reflexivity.
Qed.

Lemma get_or_none_static (config : dict) (k : string) :
  static_config config ->
  truthy (get_or_none config k) = true ->
  static_rule (get_or_none config k) = true.
Proof.
  intros Hc Ht. unfold get_or_none in *.
  destruct (dict_get config k) as [rule |] eqn:Eg; [| discriminate].
  exact (Hc _ _ Eg).
Qed.

Lemma mask_field_static (config : dict) (item : string * pyval) (w : World) :
  static_config config ->
  mask_field config item w = (Ret (mask_static config item), w).
Proof.
  intros Hc. destruct item as [key value]. unfold mask_field, mask_static.
  destruct (truthy (get_or_none config key)) eqn:Ht; [| reflexivity].
  unfold bind, ret.
  rewrite (apply_static_rule _ _ (get_or_none_static _ _ Hc Ht)).
  reflexivity.
Qed.

Lemma for_each_pure {A B : Type} (f : A -> M B) (g : A -> B) (xs : list A) :
  (forall x w, f x w = (Ret (g x), w)) ->
  forall w, for_each f xs w = (Ret (map g xs), w).
Proof.
  intros Hf. induction xs as [| x rest IH]; intros w.
  - reflexivity.
  - cbn [for_each map]. unfold bind, ret. rewrite Hf, IH. reflexivity.
Qed.

Lemma keys_mask_static (config data : dict) :
  keys (map (mask_static config) data) = keys data.
Proof.
  unfold keys. rewrite map_map. apply map_ext.
  intros [key value]. reflexivity.
Qed.

Lemma anonymize_data_static (config data : dict) (w : World) :
  static_config config -> NoDup (keys data) ->
  _anonymize_data data config w = (Ret (map (mask_static config) data), w).
Proof.
  intros Hc Hnd. rewrite anonymize_data_fields by exact Hnd.
  apply for_each_pure. intros item w0. apply mask_field_static. exact Hc.
Qed.

Lemma mask_static_twice (config : dict) (item : string * pyval) :
  mask_static config (mask_static config item) = mask_static config item.
Proof.
  destruct item as [key value]. unfold mask_static.
  destruct (truthy (get_or_none config key)); reflexivity.
Qed.

End StaticFacts.

(** X3.  Under a table whose rules are all static (literal strings,
    ["null"], values that are no strings), mapping mode is a function of
    the record alone: it returns the same record from every world without
    touching the generators, and masking its output again changes
    nothing. *)
Theorem static_rules_mask_idempotently :
  forall (R : Runtime) (config data : dict) (w : World),
    static_config config ->
    NoDup (keys data) ->
    _anonymize_data data config w = (Ret (map (mask_static config) data), w)
    /\ _anonymize_data (map (mask_static config) data) config w
       = (Ret (map (mask_static config) data), w).
Proof.
  intros R config data w Hc Hnd. split.
  - apply anonymize_data_static; assumption.
  - rewrite anonymize_data_static.
    + rewrite map_map.
      rewrite (map_ext _ _ (mask_static_twice config)). reflexivity.
    + exact Hc.
    + rewrite keys_mask_static. exact Hnd.
Qed.

Lemma static_rules_mask_idempotently_witness :
  static_config [("name", VStr "REDACTED"); ("ssn", VStr "null");
                 ("phone", VInt 5)]
  /\ NoDup (keys demo_record)
  /\ @_anonymize_data demo_runtime demo_record
       [("name", VStr "REDACTED"); ("ssn", VStr "null"); ("phone", VInt 5)] 7
     = (Ret [ ("name", VStr "REDACTED");
              ("email", VStr "john.doe@example.com"); ("age", VInt 30);
              ("phone", VStr "[MASKING_ERROR]"); ("ssn", VNone) ], 7)
  /\ @_anonymize_data demo_runtime
       [ ("name", VStr "REDACTED");
         ("email", VStr "john.doe@example.com"); ("age", VInt 30);
         ("phone", VStr "[MASKING_ERROR]"); ("ssn", VNone) ]
       [("name", VStr "REDACTED"); ("ssn", VStr "null"); ("phone", VInt 5)] 7
     = (Ret [ ("name", VStr "REDACTED");
              ("email", VStr "john.doe@example.com"); ("age", VInt 30);
              ("phone", VStr "[MASKING_ERROR]"); ("ssn", VNone) ], 7).
Proof.
  assert (Hc : static_config [("name", VStr "REDACTED"); ("ssn", VStr "null");
                              ("phone", VInt 5)]).
  { intros k rule H. cbn [dict_get] in H.
    repeat (destruct (String.eqb _ k); [inversion H; reflexivity |]).
    discriminate H. }
  assert (Hnd : NoDup (keys demo_record)) by distinct_keys.
  split; [exact Hc |]. split; [exact Hnd |].
  exact (static_rules_mask_idempotently demo_runtime _ demo_record 7 Hc Hnd).
Defined.

(** ** Trees: rules that are present, and trees without any *)

Section TreeRuleFacts.
Context `{R : Runtime}.
Variable config : dict.

Lemma anonymize_child_no_rule c :
  (forall d, In d (preorder c) -> dict_get config (tag d) = None) ->
  forall w, anonymize_child config c w = (Ret c, w).
Proof.
  induction c as [t a x tl gcs IH] using Element_forall_ind.
  intros Hno w. cbn [anonymize_child].
  assert (Ht : dict_get config t = None).
  { apply (Hno (Elem t a x tl gcs)). cbn [preorder]. left. reflexivity. }
  rewrite Ht. unfold bind, ret.
  rewrite (for_each_identity (anonymize_child config) gcs); [reflexivity |].
  intros g Hg w0. rewrite Forall_forall in IH. apply (IH g Hg).
  intros d Hd. apply Hno. cbn [preorder]. right.
  apply in_flat_map. exists g. split; assumption.
Qed.


Lemma text_masked_fails t x x' rule :
  text_masked config t x x' ->
  dict_get config t = Some rule ->
  rule_fails rule ->
  x' = MASKING_ERROR.
Proof.
  unfold text_masked. intros Hm Hr Hf. rewrite Hr in Hm.
  destruct Hm as (w0 & w1 & E).
  exact (rule_fails_marker _ Hf _ _ _ E).
Qed.

End TreeRuleFacts.

(** X4.  When no element below the root has its tag in the rule table, tree
    mode returns the tree as it is, whatever the table says about the tag
    of the root, and leaves the generators untouched. *)
Theorem tree_without_rules_is_unchanged :
  forall (R : Runtime) (config : dict) (root : Element) (w : World),
    (forall d, In d (descendants root) -> dict_get config (tag d) = None) ->
    _anonymize_xml_element root config w = (Ret root, w).
Proof.
  intros R config root w Hno. destruct root as [t a x tl cs].
  unfold _anonymize_xml_element, bind, ret.
  rewrite (for_each_identity (anonymize_child config) cs); [reflexivity |].
  intros c Hc w0. apply anonymize_child_no_rule.
  intros d Hd. apply Hno. unfold descendants. cbn [children].
  apply in_flat_map. exists c. split; assumption.
Qed.

Lemma tree_without_rules_is_unchanged_witness :
  @_anonymize_xml_element demo_runtime demo_tree
    [("root", VStr "fake.name"); ("phone", VStr "fake.phone_number")] 7
  = (Ret demo_tree, 7).
Proof.
  apply (tree_without_rules_is_unchanged demo_runtime
           [("root", VStr "fake.name"); ("phone", VStr "fake.phone_number")]
           demo_tree 7).
  intros d Hd. vm_compute in Hd.
  repeat (destruct Hd as [<- | Hd]; [reflexivity |]). destruct Hd.
Defined.



(** X6.  A rule that fails marks every element that carries its tag: when
    the rule of a tag raises a subclass of [Exception] in every world, tree
    mode still returns a tree of the same shape, and every element below
    the root with that tag, at any depth, has the text
    ["[MASKING_ERROR]"]. *)
Theorem failing_rule_marks_elements :
  forall (R : Runtime) (config : dict) (root : Element) (w : World)
         (t : string) (rule : pyval),
    config_returns config ->
    dict_get config t = Some rule ->
    rule_fails rule ->
    exists root' w',
      _anonymize_xml_element root config w = (Ret root', w')
      /\ shape root' = shape root
      /\ forall i path d,
           descend (i :: path) root = Some d -> tag d = t ->
           exists d', descend (i :: path) root' = Some d'
                      /\ text d' = MASKING_ERROR.
Proof.
  intros R config root w t rule Hc Hr Hf.
  destruct (anonymize_xml_element_returns config root Hc w)
    as (root' & w' & E).
  exists root', w'. split; [exact E |].
  split; [exact (xml_element_shape _ _ _ _ _ E) |].
  intros i path d Hd Ht.
  destruct (xml_element_descend _ _ _ _ _ _ _ _ E Hd) as (d' & Hd' & Hm).
  exists d'. split; [exact Hd' |].
  destruct (child_masked_inv _ _ _ Hm) as (_ & _ & _ & Hx & _).
  rewrite Ht in Hx. exact (text_masked_fails _ _ _ _ _ Hx Hr Hf).
Qed.

Lemma failing_rule_marks_elements_witness :
  exists root' w',
    @_anonymize_xml_element demo_runtime demo_tree
      [("name", VStr "random.randint(65, 18)")] 7 = (Ret root', w')
    /\ shape root' = shape demo_tree
    /\ forall i path d,
         descend (i :: path) demo_tree = Some d -> tag d = "name" ->
         exists d', descend (i :: path) root' = Some d'
                    /\ text d' = MASKING_ERROR.
Proof.
  apply (failing_rule_marks_elements demo_runtime
           [("name", VStr "random.randint(65, 18)")] demo_tree 7 "name"
           (VStr "random.randint(65, 18)")).
  - apply demo_config_returns.
  - reflexivity.
  - apply (rule_fails_empty_range "random.randint(65, 18)" 65 18);
      [reflexivity | lia].
Defined.

(** ** Masked values do not depend on the values they replace *)

Section IndependenceFacts.
Context `{R : Runtime}.
Variable config : dict.

Lemma mask_field_alike (key : string) (v1 v2 : pyval) (w : World) :
  ends_alike (same_masked config) (mask_field config (key, v1) w)
             (mask_field config (key, v2) w).
Proof.
  unfold mask_field, same_masked.
  destruct (truthy (get_or_none config key)) eqn:Ht.
  - unfold bind, ret.
    destruct (_apply_masking_rule (get_or_none config key) w)
      as [[v | e] w1]; simpl; auto.
  - simpl. rewrite Ht. split; [reflexivity |].
    split; [reflexivity | discriminate].
Qed.

Lemma for_each_mask_field_alike (d1 : dict) :
  forall (d2 : dict) (w : World),
    keys d1 = keys d2 ->
    ends_alike (Forall2 (same_masked config))
               (for_each (mask_field config) d1 w)
               (for_each (mask_field config) d2 w).
Proof.
  induction d1 as [| [k1 v1] rest1 IH]; intros [| [k2 v2] rest2] w Hk;
    simpl in Hk; try discriminate.
  - simpl. auto.
  - inversion Hk; subst. cbn [for_each]. unfold bind.
    pose proof (mask_field_alike k2 v1 v2 w) as Hhead.
    unfold ends_alike in Hhead.
    destruct (mask_field config (k2, v1) w) as [[y1 | e1] w1],
             (mask_field config (k2, v2) w) as [[y2 | e2] w2];
      try (destruct Hhead; fail); [| exact Hhead].
    destruct Hhead as (<- & Hy).
    specialize (IH rest2 w1 H1). unfold ends_alike in IH.
    destruct (for_each (mask_field config) rest1 w1) as [[ys1 | e1] w1'],
             (for_each (mask_field config) rest2 w1) as [[ys2 | e2] w2'];
      try (destruct IH; fail); [| exact IH].
    destruct IH as (<- & Hys). simpl. split; [reflexivity |].
    constructor; assumption.
Qed.

Lemma same_masked_agree (o1 o2 : dict) :
  Forall2 (same_masked config) o1 o2 -> agree_on_masked config o1 o2.
Proof.
  induction 1 as [| [k1 u1] [k2 u2] o1 o2 (Hk & Hv) _ (IHk & IHv)];
    simpl in *.
  - split; reflexivity.
  - subst k2. split; [simpl; congruence |].
    intros k Ht. simpl.
    destruct (String.eqb_spec k1 k) as [-> | _]; [| exact (IHv k Ht)].
    rewrite (Hv Ht). reflexivity.
Qed.

End IndependenceFacts.

(** X7.  What mapping mode writes under a masked key does not depend on the
    value it replaces: two records with the same keys, masked from the same
    world, end in the same world with the same value under every key that
    has a truthy rule (or stop with the same exception). *)
Theorem masked_fields_ignore_original_values :
  forall (R : Runtime) (config data1 data2 : dict) (w : World),
    NoDup (keys data1) ->
    keys data1 = keys data2 ->
    ends_alike (agree_on_masked config)
               (_anonymize_data data1 config w)
               (_anonymize_data data2 config w).
Proof.
  intros R config data1 data2 w Hnd Hk.
  rewrite (anonymize_data_fields config data1 w Hnd).
  rewrite (anonymize_data_fields config data2 w)
    by (rewrite <- Hk; exact Hnd).
  pose proof (for_each_mask_field_alike config data1 data2 w Hk) as H.
  unfold ends_alike in *.
  destruct (for_each (mask_field config) data1 w) as [[o1 | e1] w1],
           (for_each (mask_field config) data2 w) as [[o2 | e2] w2];
    try exact H.
  destruct H as (Hw & Hall). split; [exact Hw |].
  apply same_masked_agree. exact Hall.
Qed.

Lemma masked_fields_ignore_original_values_witness :
  ends_alike (agree_on_masked demo_config)
             (@_anonymize_data demo_runtime demo_record demo_config 7)
             (@_anonymize_data demo_runtime demo_record_2 demo_config 7).
Proof.
  apply (masked_fields_ignore_original_values demo_runtime demo_config
           demo_record demo_record_2 7).
  - distinct_keys.
  - reflexivity.
Defined.

Section TreeIndependenceFacts.
Context `{R : Runtime}.
Variable config : dict.

Lemma rules_of_tags (es1 : list Element) :
  forall es2, map tag es1 = map tag es2 ->
              rules_of config es1 = rules_of config es2.
Proof.
  induction es1 as [| e1 rest1 IH]; intros [| e2 rest2] Ht; simpl in Ht;
    try discriminate; [reflexivity |].
  inversion Ht as [[Hhead Hrest]]. cbn [rules_of]. rewrite Hhead.
  rewrite (IH _ Hrest). reflexivity.
Qed.

Lemma tags_flat_map (f g : Element -> list Element) (cs : list Element) :
  Forall (fun c => map tag (f c) = map tag (g c)) cs ->
  map tag (flat_map f cs) = map tag (flat_map g cs).
Proof.
  induction 1 as [| c rest Hc _ IH]; simpl; [reflexivity |].
  rewrite !map_app, Hc, IH. reflexivity.
Qed.

(** The tags met by a pre-order walk are those of the shape. *)
Lemma tags_preorder_shape (e : Element) :
  map tag (preorder (shape e)) = map tag (preorder e).
Proof.
  induction e as [t a x tl cs IH] using Element_forall_ind.
  cbn [shape preorder map tag]. f_equal.
  rewrite flat_map_concat_map, map_map, <- flat_map_concat_map.
  apply tags_flat_map. exact IH.
Qed.

Lemma rules_of_descendants_shape (e1 e2 : Element) :
  shape e1 = shape e2 ->
  rules_of config (descendants e1) = rules_of config (descendants e2).
Proof.
  intros Hs. apply rules_of_tags.
  assert (H : forall e, map tag (descendants e)
                        = List.tl (map tag (preorder (shape e)))).
  { intros e. rewrite tags_preorder_shape. destruct e. reflexivity. }
  rewrite !H, Hs. reflexivity.
Qed.

End TreeIndependenceFacts.

(** X8.  What tree mode writes into masked elements does not depend on the
    texts it replaces: two trees of the same shape, masked from the same
    world, end in the same world with the same texts in the elements whose
    tag is in the table, read in pre-order (or stop with the same
    exception). *)
Theorem masked_texts_ignore_original_texts :
  forall (R : Runtime) (config : dict) (root1 root2 : Element) (w : World),
    shape root1 = shape root2 ->
    ends_alike (fun out1 out2 =>
                  texts_of config (descendants out1)
                  = texts_of config (descendants out2))
               (_anonymize_xml_element root1 config w)
               (_anonymize_xml_element root2 config w).
Proof.
  intros R config root1 root2 w Hs.
  pose proof (xml_element_in_preorder config root1 w) as H1.
  pose proof (xml_element_in_preorder config root2 w) as H2.
  unfold in_preorder, ends_alike in *.
  rewrite <- (rules_of_descendants_shape config _ _ Hs) in H2.
  destruct (_anonymize_xml_element root1 config w) as [[o1 | e1] w1],
           (_anonymize_xml_element root2 config w) as [[o2 | e2] w2];
    rewrite H1 in H2; inversion H2; auto.
Qed.

Lemma masked_texts_ignore_original_texts_witness :
  ends_alike (fun out1 out2 =>
                texts_of demo_tree_config (descendants out1)
                = texts_of demo_tree_config (descendants out2))
             (@_anonymize_xml_element demo_runtime demo_tree
                demo_tree_config 7)
             (@_anonymize_xml_element demo_runtime
                (Elem "root" [] VNone None
                   [ demo_person "A" "a@example.org";
                     demo_person "B" "b@example.org" ])
                demo_tree_config 7).
Proof.
  apply (masked_texts_ignore_original_texts demo_runtime demo_tree_config).
  reflexivity.
Defined.

(** ** Which rule table is used *)

(** X9.  A table passed to [anonymize_json] replaces the table of the
    instance, it is not merged with it: a key the passed table does not
    name keeps its value whatever rule the instance has for it.  A passed
    table that is empty is falsy and the table of the instance is used, as
    if none had been passed; [anonymize_csv] chooses the same way. *)
Theorem passed_table_replaces_instance_table :
  forall (R : Runtime) (self_config c data : dict) (rows : list dict)
         (w : World) (k : string) (v : pyval),
    NoDup (keys data) ->
    c <> [] ->
    config_returns c ->
    dict_get c k = None ->
    dict_get data k = Some v ->
    (exists out w',
        anonymize_json self_config data (Some c) w = (Ret out, w')
        /\ dict_get out k = Some v)
    /\ anonymize_json self_config data (Some []) w
       = _anonymize_data data self_config w
    /\ anonymize_csv self_config rows (Some c) w
       = anonymize_csv c rows None w
    /\ anonymize_csv self_config rows (Some []) w
       = anonymize_csv self_config rows None w.
Proof.
  intros R self_config c data rows w k v Hnd Hc Hret Habs Hk.
  assert (Hor : config_or (Some c) self_config = c).
  { destruct c; [destruct (Hc eq_refl) | reflexivity]. }
  split; [| split; [reflexivity | split; [| reflexivity]]].
  - unfold anonymize_json. rewrite Hor.
    destruct (anonymize_data_returns c data Hret w) as (out & w' & E).
    exists out, w'. split; [exact E |].
    exact (absent_field_kept c data out k v
             (anonymize_data_inv _ _ _ _ _ Hnd E) Habs Hk).
  - unfold anonymize_csv. rewrite Hor. reflexivity.
Qed.

Lemma passed_table_replaces_instance_table_witness :
  (exists out w',
      @anonymize_json demo_runtime demo_config demo_record
        (Some [("name", VStr "REDACTED")]) 7 = (Ret out, w')
      /\ dict_get out "email" = Some (VStr "john.doe@example.com"))
  /\ @anonymize_json demo_runtime demo_config demo_record (Some []) 7
     = @_anonymize_data demo_runtime demo_record demo_config 7
  /\ @anonymize_csv demo_runtime demo_config [demo_record; demo_record_2]
       (Some [("name", VStr "REDACTED")]) 7
     = @anonymize_csv demo_runtime [("name", VStr "REDACTED")]
         [demo_record; demo_record_2] None 7
  /\ @anonymize_csv demo_runtime demo_config [demo_record; demo_record_2]
       (Some []) 7
     = @anonymize_csv demo_runtime demo_config [demo_record; demo_record_2]
         None 7.
Proof.
  apply (passed_table_replaces_instance_table demo_runtime demo_config
           [("name", VStr "REDACTED")] demo_record
           [demo_record; demo_record_2] 7 "email"
           (VStr "john.doe@example.com")).
  - distinct_keys.
  - discriminate.
  - apply demo_config_returns.
  - reflexivity.
  - reflexivity.
Defined.

(** ** Input that is no record *)

(** X10.  [anonymize_json] masks a JSON object only: with rules that return,
    it comes back with a record exactly when the decoded input is a dict.
    For a list of records, a string, a number or [null] it raises
    [AttributeError] out of the call, before any rule is applied. *)
Theorem anonymize_json_needs_a_dict :
  forall (R : Runtime) (self_config : dict) (config : option dict)
         (data : pyval) (w : World),
    config_returns (config_or config self_config) ->
    ((exists out w',
         anonymize_json_decoded self_config data config w = (Ret out, w'))
     <-> exists d, data = VDict d)
    /\ ((forall d, data <> VDict d) ->
        anonymize_json_decoded self_config data config w
        = (Raise AttributeError, w)).
Proof.
  intros R self_config config data w Hc. split; [split |].
  - intros (out & w' & E).
    destruct data; try discriminate E. eauto.
  - intros (d & ->). cbn [anonymize_json_decoded]. unfold anonymize_json.
    exact (anonymize_data_returns _ d Hc w).
  - intros Hno. destruct data; try reflexivity.
    destruct (Hno _ eq_refl).
Qed.

Lemma anonymize_json_needs_a_dict_witness :
  ((exists out w',
       @anonymize_json_decoded demo_runtime demo_config
         (VList [VDict demo_record; VDict demo_record_2]) None 7
       = (Ret out, w'))
   <-> exists d, VList [VDict demo_record; VDict demo_record_2] = VDict d)
  /\ ((forall d, VList [VDict demo_record; VDict demo_record_2] <> VDict d) ->
      @anonymize_json_decoded demo_runtime demo_config
        (VList [VDict demo_record; VDict demo_record_2]) None 7
      = (Raise AttributeError, 7)).
Proof.
  apply (anonymize_json_needs_a_dict demo_runtime demo_config None
           (VList [VDict demo_record; VDict demo_record_2]) 7).
  apply demo_config_returns.
Defined.

(** ** The order in which a record sets off its rules *)

Section MappingOrder.
Context `{R : Runtime}.
Variable config : dict.

Lemma for_each_mask_field_order (data : dict) :
  forall w,
    match for_each (mask_field config) data w with
    | (Ret out, w') =>
        for_each _apply_masking_rule (truthy_rules config (keys data)) w
        = (Ret (masked_values config out), w')
        /\ keys out = keys data
    | (Raise e, w') =>
        for_each _apply_masking_rule (truthy_rules config (keys data)) w
        = (Raise e, w')
    end.
Proof.
  induction data as [| [key value] rest IH]; intros w.
  - simpl. split; reflexivity.
  - cbn [for_each mask_field keys map fst truthy_rules].
    destruct (truthy (get_or_none config key)) eqn:Ht.
    + cbn [for_each]. unfold bind, ret.
      destruct (_apply_masking_rule (get_or_none config key) w)
        as [[v | e] w1]; [| reflexivity].
      specialize (IH w1). fold (keys rest).
      destruct (for_each (mask_field config) rest w1) as [[out | e] w2].
      * destruct IH as (-> & Hk). cbn [masked_values keys map fst].
        rewrite Ht. split; [reflexivity |]. f_equal. exact Hk.
      * rewrite IH. reflexivity.
    + unfold bind, ret. specialize (IH w). fold (keys rest).
      destruct (for_each (mask_field config) rest w) as [[out | e] w2].
      * destruct IH as (-> & Hk). cbn [masked_values keys map fst].
        rewrite Ht. split; [reflexivity |]. f_equal. exact Hk.
      * exact IH.
Qed.

End MappingOrder.

(** X11.  Mapping mode applies the rules in the order of the record's keys,
    one application per key with a truthy rule and none for the other keys:
    the world after masking is the world after applying those rules in that
    order, and the values they returned are the masked values of the output
    in the same order.  An escaping exception stops both at the same
    point. *)
Theorem mapping_applies_rules_in_key_order :
  forall (R : Runtime) (config data : dict) (w : World),
    NoDup (keys data) ->
    match _anonymize_data data config w with
    | (Ret out, w') =>
        for_each _apply_masking_rule (truthy_rules config (keys data)) w
        = (Ret (masked_values config out), w')
    | (Raise e, w') =>
        for_each _apply_masking_rule (truthy_rules config (keys data)) w
        = (Raise e, w')
    end.
Proof.
  intros R config data w Hnd.
  rewrite (anonymize_data_fields config data w Hnd).
  pose proof (for_each_mask_field_order config data w) as H.
  destruct (for_each (mask_field config) data w) as [[out | e] w'].
  - exact (proj1 H).
  - exact H.
Qed.

Lemma mapping_applies_rules_in_key_order_witness :
  for_each (@_apply_masking_rule demo_runtime)
    (truthy_rules demo_config (keys demo_record)) 7
  = (Ret (masked_values demo_config
            [ ("name", VStr "Alex Doe"); ("email", VStr "alex@example.org");
              ("age", VStr "27"); ("phone", VStr "555-123-4567");
              ("ssn", VStr "000-00-0000") ]), 11).
Proof.
  assert (Hnd : NoDup (keys demo_record)) by distinct_keys.
  exact (mapping_applies_rules_in_key_order demo_runtime demo_config
           demo_record 7 Hnd).
Defined.

(** ** A failing rule in a batch *)

Lemma In_keys_get (d : dict) (k : string) :
  In k (keys d) -> exists v, dict_get d k = Some v.
Proof.
  induction d as [| [k' v'] rest IH]; simpl; [intros [] |].
  destruct (String.eqb_spec k' k) as [-> | Hne]; [eauto |].
  intros [Hk | Hin]; [congruence | auto].
Qed.

(** X12.  One failing rule does not stop a batch: when the rule of a column
    raises a subclass of [Exception] in every world, sequence mode still
    returns one output row per input row, and every output row holds
    ["[MASKING_ERROR]"] in that column. *)
Theorem failing_rule_marks_every_row :
  forall (R : Runtime) (self_config : dict) (config : option dict)
         (rows : list dict) (w : World) (k : string),
    config_returns (config_or config self_config) ->
    truthy (get_or_none (config_or config self_config) k) = true ->
    rule_fails (get_or_none (config_or config self_config) k) ->
    Forall (fun row => NoDup (keys row) /\ In k (keys row)) rows ->
    exists outs w',
      anonymize_csv self_config rows config w = (Ret outs, w')
      /\ length outs = length rows
      /\ Forall (fun out => dict_get out k = Some MASKING_ERROR) outs.
Proof.
  intros R self_config config rows w k Hc Ht Hf Hrows.
  set (T := config_or config self_config) in *.
  assert (Hret : returns (anonymize_csv self_config rows config)).
  { intros w0. rewrite anonymize_csv_for_each.
    apply returns_for_each. intros row _.
    apply anonymize_data_returns. exact Hc. }
  destruct (Hret w) as (outs & w' & E). clear Hret.
  exists outs, w'. split; [exact E |].
  rewrite anonymize_csv_for_each in E. fold T in E.
  split; [exact (proj1 (for_each_nth _ _ _ _ _ E)) |].
  apply for_each_ret_inv in E.
  induction E as [| row out rows outs (w0 & w1 & Erow) _ IH]; constructor.
  - inversion Hrows as [| ? ? (Hnd & Hin) _]; subst.
    pose proof (anonymize_data_inv _ _ _ _ _ Hnd Erow) as Hall.
    destruct (In_keys_get row k Hin) as (v & Hv).
    destruct (field_masked_get _ _ _ _ _ Hall Hv) as (u & Hu & _ & Hm).
    simpl in Hm. rewrite Ht in Hm. destruct Hm as (w2 & w3 & Em).
    rewrite (rule_fails_marker _ Hf _ _ _ Em) in Hu. exact Hu.
  - apply IH. inversion Hrows; assumption.
Qed.

Lemma failing_rule_marks_every_row_witness :
  exists outs w',
    @anonymize_csv demo_runtime [] [demo_record; demo_record_2]
      (Some demo_config_bad) 7 = (Ret outs, w')
    /\ length outs = 2%nat
    /\ Forall (fun out => dict_get out "age" = Some MASKING_ERROR) outs.
Proof.
  apply (failing_rule_marks_every_row demo_runtime [] (Some demo_config_bad)
           [demo_record; demo_record_2] 7 "age").
  - apply demo_config_returns.
  - reflexivity.
  - apply (rule_fails_empty_range "random.randint(65, 18)" 65 18);
      [reflexivity | lia].
  - repeat constructor; simpl; intuition discriminate.
Defined.
